(** * cqlengine.functions: query values and query functions

    A shallow embedding of [cqlengine/functions.py] (Python 2): the classes
    [QueryValue], [MinTimeUUID], [MaxTimeUUID] and [Token], together with the
    part of the Python runtime they use (exceptions, [str], [format],
    [isinstance], [len], [zip], [long], float arithmetic, [datetime] and
    [timedelta]), followed by the properties of the binding mechanism.

    Conventions.
    - Python integers are unbounded: [Z].
    - Python floats are IEEE-754 binary64: Rocq's primitive floats.
    - The binding context [ctx] is a [dict] keyed by strings: a
      [gmap string pyval]; [ctx[k] = v] is [<[k:=v]> ctx].
    - A method that mutates [ctx] and may raise is a function from the
      context to an outcome and the context it leaves behind. *)

From Stdlib Require Import ZArith List Bool Ascii String Lia.
From Stdlib Require Floats.
From stdpp Require Import base strings pretty gmap list.

Open Scope Z_scope.

(** ** Exceptions and results *)

Inductive exception :=
| ValidationError (msg : string)   (* cqlengine.exceptions.ValidationError *)
| TypeError
| AttributeError
| OverflowError
| ValueError
| OtherError (name : string).      (* whatever else a collaborator raises *)

Inductive result (A : Type) :=
| Ok (a : A)
| Raise (e : exception).
Arguments Ok {A} a.
Arguments Raise {A} e.

Definition is_raise {A} (r : result A) : bool :=
  match r with Raise _ => true | Ok _ => false end.

(** ** Floats *)

Module PyFloat.

Import SpecFloat FloatOps.

Abbreviation float := PrimFloat.float.

(** [float(n)] for an integer [n]: the double nearest to [n]. *)
Definition of_int (n : Z) : float :=
  SF2Prim (binary_normalize prec emax n 0 false).

(** The exact integer [n] as a (not rounded) binary number, for the
    correctly rounded quotient below. *)
Definition exact (n : Z) : spec_float :=
  match n with
  | Z0 => S754_zero false
  | Zpos p => S754_finite false p 0
  | Zneg p => S754_finite true p 0
  end.

(** [a / b] under true division, for integers and [b] positive: the double
    nearest to the exact quotient (ties to even). *)
Definition true_divide (a b : Z) : float :=
  SF2Prim (SFdiv prec emax (exact a) (exact b)).

Definition sub : float -> float -> float := PrimFloat.sub.
Definition mul : float -> float -> float := PrimFloat.mul.

(** [long(x)]: truncation toward zero; infinities and NaN raise. *)
Definition long (x : float) : result Z :=
  match Prim2SF x with
  | S754_zero _ => Ok 0
  | S754_finite s m e =>
      let a := Z.shiftl (Zpos m) e in
      Ok (if s then - a else a)
  | S754_infinity _ => Raise OverflowError
  | S754_nan => Raise ValueError
  end.

(** [round(x)] of Python 2: to the nearest integer, halves away from zero. *)
Definition round (x : float) : result Z :=
  match Prim2SF x with
  | S754_zero _ => Ok 0
  | S754_finite s m e =>
      let a :=
        match e with
        | Zneg p =>
            let q := Z.shiftr (Zpos m) (Zpos p) in
            let r := Zpos m - Z.shiftl q (Zpos p) in
            if 2 ^ Zpos p <=? 2 * r then q + 1 else q
        | _ => Z.shiftl (Zpos m) e
        end in
      Ok (if s then - a else a)
  | S754_infinity _ => Raise OverflowError
  | S754_nan => Raise ValueError
  end.

End PyFloat.

(** ** datetime and timedelta *)

Record timedelta := new_timedelta {
  days : Z;
  seconds : Z;
  microseconds : Z
}.

(** The calendar and clock fields of a [datetime]. *)
Record wallclock := new_wallclock {
  year : Z;
  month : Z;
  day : Z;
  hour : Z;
  minute : Z;
  second : Z;
  microsecond : Z
}.

(** A [tzinfo] object: its [utcoffset(dt)] method, which sees the fields of
    [dt] and returns a [timedelta] or [None]. The object itself is true in
    a condition, as instances are unless their class says otherwise. *)
Record tzinfo := new_tzinfo {
  utcoffset : wallclock -> option timedelta
}.

Record datetime := new_datetime {
  wall : wallclock;
  dt_tzinfo : option tzinfo    (* the attribute [tzinfo]; [None] when naive *)
}.

Module Datetime.

(** [new_delta] with normalisation: 0 <= microseconds < 10^6 and
    0 <= seconds < 86400. *)
Definition new_delta (d s us : Z) : timedelta :=
  let s := s + us / 1000000 in
  let us := us mod 1000000 in
  let d := d + s / 86400 in
  let s := s mod 86400 in
  new_timedelta d s us.

Definition is_leap (y : Z) : bool :=
  (y mod 4 =? 0) && (negb (y mod 100 =? 0) || (y mod 400 =? 0)).

Definition days_before_year (y : Z) : Z :=
  let y := y - 1 in
  y * 365 + y / 4 - y / 100 + y / 400.

Definition _days_before_month : list Z :=
  [0; 0; 31; 59; 90; 120; 151; 181; 212; 243; 273; 304; 334].

Definition days_before_month (y m : Z) : Z :=
  let d := nth (Z.to_nat m) _days_before_month 0 in
  if (2 <? m) && is_leap y then d + 1 else d.

Definition _days_in_month : list Z :=
  [0; 31; 28; 31; 30; 31; 30; 31; 31; 30; 31; 30; 31].

Definition days_in_month (y m : Z) : Z :=
  if (m =? 2) && is_leap y then 29 else nth (Z.to_nat m) _days_in_month 0.

Definition ymd_to_ord (y m d : Z) : Z :=
  days_before_year y + days_before_month y m + d.

(** What the [datetime] constructor accepts. *)
Definition valid (w : wallclock) : bool :=
  (1 <=? year w) && (year w <=? 9999) &&
  (1 <=? month w) && (month w <=? 12) &&
  (1 <=? day w) && (day w <=? days_in_month (year w) (month w)) &&
  (0 <=? hour w) && (hour w <? 24) &&
  (0 <=? minute w) && (minute w <? 60) &&
  (0 <=? second w) && (second w <? 60) &&
  (0 <=? microsecond w) && (microsecond w <? 1000000).

(** The range of a [timedelta]. *)
Definition valid_delta (td : timedelta) : bool :=
  (-999999999 <=? days td) && (days td <=? 999999999) &&
  (0 <=? seconds td) && (seconds td <? 86400) &&
  (0 <=? microseconds td) && (microseconds td <? 1000000).

(** [datetime(year, month, day, tzinfo=tz)]. *)
Definition make (y m d : Z) (tz : option tzinfo) : datetime :=
  new_datetime (new_wallclock y m d 0 0 0 0) tz.

(** [left - right] for two datetimes that carry the same [tzinfo] member
    (the same object, or both none): the [tzinfo] is ignored and the fields
    are subtracted. This is the only way the module subtracts datetimes:
    the epoch is built with the [tzinfo] of the value. *)
Definition sub (left right : datetime) : timedelta :=
  let l := wall left in
  let r := wall right in
  let delta_d :=
    ymd_to_ord (year l) (month l) (day l) -
    ymd_to_ord (year r) (month r) (day r) in
  let delta_s :=
    (hour l - hour r) * 3600 + (minute l - minute r) * 60 +
    (second l - second r) in
  let delta_us := microsecond l - microsecond r in
  new_delta delta_d delta_s delta_us.

Definition delta_to_microseconds (td : timedelta) : Z :=
  (days td * 86400 + seconds td) * 1000000 + microseconds td.

(** [td.total_seconds()]: the microseconds of [td] over 10^6, under true
    division. *)
Definition total_seconds (td : timedelta) : PyFloat.float :=
  PyFloat.true_divide (delta_to_microseconds td) 1000000.

End Datetime.

(** ** Python values *)

#[warnings="-register-all"]
Inductive pyval :=
| PyNone
| PyBool (b : bool)
| PyInt (n : Z)
| PyLong (n : Z)
| PyFloat (x : PyFloat.float)
| PyStr (s : string)
| PyList (items : list pyval)
| PyTuple (items : list pyval)
| PyDatetime (d : datetime)
| PyObject (cls : string).         (* an instance of any other class *)

(** [isinstance(v, datetime)]. *)
Definition isinstance_datetime (v : pyval) : bool :=
  match v with PyDatetime _ => true | _ => false end.

(** [isinstance(v, (list, tuple))]. *)
Definition isinstance_list_tuple (v : pyval) : bool :=
  match v with PyList _ | PyTuple _ => true | _ => false end.

(** [str(n)] for an integer. *)
Definition str_int (n : Z) : string := pretty n.

(** [str(x)] for a context id: an integer, or [None] before assignment. *)
Definition str (x : option Z) : string :=
  match x with
  | Some n => str_int n
  | None => "None"
  end.

(** [fmt.format(arg)] for a format string with one replacement field: the
    first [{}] is replaced by the text of [arg]. *)
Fixpoint format (fmt arg : string) : string :=
  match fmt with
  | EmptyString => EmptyString
  | String c rest =>
      match rest with
      | String c' rest' =>
          if (Ascii.eqb c "{"%char && Ascii.eqb c' "}"%char)%bool
          then arg +:+ rest'
          else String c (format rest arg)
      | EmptyString => String c EmptyString
      end
  end.

(** [sep.join(parts)]. *)
Definition join (sep : string) (parts : list string) : string :=
  String.concat sep parts.

(** The items [iter(v)] yields: the iteration protocol for the built-in
    sequences, a [TypeError] for the values that are not iterable. *)
Definition iter (v : pyval) : result (list pyval) :=
  match v with
  | PyList items | PyTuple items => Ok items
  | PyStr s => Ok (map (fun c => PyStr (String c EmptyString)) (list_ascii_of_string s))
  | _ => Raise TypeError
  end.

(** [len(v)]. *)
Definition len (v : pyval) : result Z :=
  match v with
  | PyList items | PyTuple items => Ok (Z.of_nat (length items))
  | PyStr s => Ok (Z.of_nat (String.length s))
  | _ => Raise TypeError
  end.

(** [range(n)]. *)
Definition range (n : Z) : list Z := seqZ 0 n.

(** [x + i] for a context id [x]: [None + i] is a [TypeError]. *)
Definition add_int (x : option Z) (i : Z) : result Z :=
  match x with
  | Some n => Ok (n + i)
  | None => Raise TypeError
  end.

(** [enumerate(l)]. *)
Definition enumerate {A} (l : list A) : list (Z * A) :=
  zip (seqZ 0 (Z.of_nat (length l))) l.

(** ** Computations that may raise, and methods that update the context *)

Definition result_bind {A B} (r : result A) (k : A -> result B) : result B :=
  match r with
  | Ok a => k a
  | Raise e => Raise e
  end.

Notation "x <-- r ;; k" := (result_bind r (fun x => k))
  (at level 100, r at next level, right associativity).

(** [[f(x) for x in l]], stopping at the first exception. *)
Fixpoint map_result {A B} (f : A -> result B) (l : list A) : result (list B) :=
  match l with
  | [] => Ok []
  | x :: l' => y <-- f x ;; ys <-- map_result f l' ;; Ok (y :: ys)
  end.

Abbreviation context := (gmap string pyval).

(** A method body that receives [ctx]: its outcome and the context as the
    body leaves it, also when it raises. *)
Definition M (A : Type) : Type := context -> result A * context.

Definition ret {A} (a : A) : M A := fun ctx => (Ok a, ctx).

Definition bind {A B} (m : M A) (k : A -> M B) : M B :=
  fun ctx =>
    match m ctx with
    | (Ok a, ctx') => k a ctx'
    | (Raise e, ctx') => (Raise e, ctx')
    end.

Notation "x <- m ;; k" := (bind m (fun x => k))
  (at level 100, m at next level, right associativity).

(** An expression that does not touch the context. *)
Definition lift {A} (r : result A) : M A := fun ctx => (r, ctx).

(** [ctx[k] = v]. *)
Definition setitem (k : string) (v : pyval) : M unit :=
  fun ctx => (Ok tt, <[k := v]> ctx).

(** [for x in l: body(x)]. *)
Fixpoint for_ {A} (l : list A) (body : A -> M unit) : M unit :=
  match l with
  | [] => ret tt
  | x :: l' => _ <- body x ;; for_ l' body
  end.

(** ** Column descriptors

    The columns live in another module of the package; a [Token] only calls
    [to_database] on them, which may raise. *)
Record Column := new_Column {
  to_database : pyval -> result pyval
}.

(** ** class QueryValue *)

Module QueryValue.

Record t := new {
  value : pyval;
  context_id : option Z        (* [None] until [set_context_id] *)
}.

Definition format_string : string := ":{}".

Definition __init__ (value : pyval) : t := new value None.

(** [self.format_string] is looked up on the class of [self]: the
    subclasses pass their own. *)
Definition __unicode__ (format_string : string) (self : t) : string :=
  format format_string (str (context_id self)).

Definition set_context_id (self : t) (ctx_id : Z) : t :=
  new (value self) (Some ctx_id).

Definition get_context_size (self : t) : Z := 1.

Definition update_context (self : t) : M unit :=
  setitem (str (context_id self)) (value self).

End QueryValue.

(** ** class MinTimeUUID(BaseQueryFunction) *)

Module MinTimeUUID.

Import QueryValue.

Definition format_string : string := "MinTimeUUID(:{})".

Definition __init__ (value : pyval) : result QueryValue.t :=
  if negb (isinstance_datetime value)
  then Raise (ValidationError "datetime instance is required")
  else Ok (QueryValue.__init__ value).

Definition __unicode__ (self : QueryValue.t) : string :=
  QueryValue.__unicode__ format_string self.

Definition update_context (self : QueryValue.t) : M unit :=
  match value self with
  | PyDatetime v =>
      let epoch := Datetime.make 1970 1 1 (dt_tzinfo v) in
      offset <- lift
        match dt_tzinfo epoch with
        | Some tz =>
            match utcoffset tz (wall epoch) with
            | Some td => Ok (Datetime.total_seconds td)
            | None => Raise AttributeError
            end
        | None => Ok (PyFloat.of_int 0)
        end ;;
      ms <- lift (PyFloat.long
        (PyFloat.mul
           (PyFloat.sub (Datetime.total_seconds (Datetime.sub v epoch)) offset)
           (PyFloat.of_int 1000))) ;;
      setitem (str (context_id self)) (PyLong ms)
  | _ => lift (Raise AttributeError)      (* [self.value.tzinfo] *)
  end.

End MinTimeUUID.

(** ** class MaxTimeUUID(BaseQueryFunction) *)

Module MaxTimeUUID.

Import QueryValue.

Definition format_string : string := "MaxTimeUUID(:{})".

Definition __init__ (value : pyval) : result QueryValue.t :=
  if negb (isinstance_datetime value)
  then Raise (ValidationError "datetime instance is required")
  else Ok (QueryValue.__init__ value).

Definition __unicode__ (self : QueryValue.t) : string :=
  QueryValue.__unicode__ format_string self.

Definition update_context (self : QueryValue.t) : M unit :=
  match value self with
  | PyDatetime v =>
      let epoch := Datetime.make 1970 1 1 (dt_tzinfo v) in
      offset <- lift
        match dt_tzinfo epoch with
        | Some tz =>
            match utcoffset tz (wall epoch) with
            | Some td => Ok (Datetime.total_seconds td)
            | None => Raise AttributeError
            end
        | None => Ok (PyFloat.of_int 0)
        end ;;
      ms <- lift (PyFloat.long
        (PyFloat.mul
           (PyFloat.sub (Datetime.total_seconds (Datetime.sub v epoch)) offset)
           (PyFloat.of_int 1000))) ;;
      setitem (str (context_id self)) (PyLong ms)
  | _ => lift (Raise AttributeError)      (* [self.value.tzinfo] *)
  end.

End MaxTimeUUID.

(** ** class Token(BaseQueryFunction) *)

Module Token.

Record t := new {
  base : QueryValue.t;                 (* [value] and [context_id] *)
  _columns : option (list Column)      (* [None] until [set_columns] *)
}.

Definition value (self : t) : pyval := QueryValue.value (base self).
Definition context_id (self : t) : option Z := QueryValue.context_id (base self).

(** [values] is the tuple of the positional arguments. *)
Definition __init__ (values : list pyval) : t :=
  let values :=
    match values with
    | [v] => if isinstance_list_tuple v then v else PyTuple values
    | _ => PyTuple values
    end in
  new (QueryValue.__init__ values) None.

Definition set_columns (self : t) (columns : list Column) : t :=
  new (base self) (Some columns).

Definition set_context_id (self : t) (ctx_id : Z) : t :=
  new (QueryValue.set_context_id (base self) ctx_id) (_columns self).

Definition get_context_size (self : t) : result Z :=
  len (value self).

Definition __unicode__ (self : t) : result string :=
  n <-- get_context_size self ;;
  token_args <-- map_result
    (fun i => k <-- add_int (context_id self) i ;; Ok (format ":{}" (str_int k)))
    (range n) ;;
  Ok (format "token({})" (join ", " token_args)).

Definition update_context (self : t) : M unit :=
  pairs <- lift
    (columns <-- match _columns self with
                 | Some columns => Ok columns
                 | None => Raise TypeError         (* [zip(None, ...)] *)
                 end ;;
     values <-- iter (value self) ;;
     Ok (zip columns values)) ;;
  for_ (enumerate pairs) (fun '(i, (col, val)) =>
    v <- lift (to_database col val) ;;
    k <- lift (add_int (context_id self) i) ;;
    setitem (str_int k) v).

End Token.

(** ** The values a statement binds

    The statement builder holds instances of the four classes and calls
    [set_context_id], [get_context_size], [unicode] and [update_context] on
    them; each call goes to the method of the instance's class. *)

Inductive bindable :=
| AQueryValue (self : QueryValue.t)
| AMinTimeUUID (self : QueryValue.t)
| AMaxTimeUUID (self : QueryValue.t)
| AToken (self : Token.t).

Definition context_id (b : bindable) : option Z :=
  match b with
  | AQueryValue self | AMinTimeUUID self | AMaxTimeUUID self =>
      QueryValue.context_id self
  | AToken self => Token.context_id self
  end.

Definition set_context_id (b : bindable) (ctx_id : Z) : bindable :=
  match b with
  | AQueryValue self => AQueryValue (QueryValue.set_context_id self ctx_id)
  | AMinTimeUUID self => AMinTimeUUID (QueryValue.set_context_id self ctx_id)
  | AMaxTimeUUID self => AMaxTimeUUID (QueryValue.set_context_id self ctx_id)
  | AToken self => AToken (Token.set_context_id self ctx_id)
  end.

Definition get_context_size (b : bindable) : result Z :=
  match b with
  | AQueryValue self | AMinTimeUUID self | AMaxTimeUUID self =>
      Ok (QueryValue.get_context_size self)
  | AToken self => Token.get_context_size self
  end.

Definition unicode (b : bindable) : result string :=
  match b with
  | AQueryValue self => Ok (QueryValue.__unicode__ QueryValue.format_string self)
  | AMinTimeUUID self => Ok (MinTimeUUID.__unicode__ self)
  | AMaxTimeUUID self => Ok (MaxTimeUUID.__unicode__ self)
  | AToken self => Token.__unicode__ self
  end.

Definition update_context (b : bindable) : M unit :=
  match b with
  | AQueryValue self => QueryValue.update_context self
  | AMinTimeUUID self => MinTimeUUID.update_context self
  | AMaxTimeUUID self => MaxTimeUUID.update_context self
  | AToken self => Token.update_context self
  end.

(** ** The examples of the documentation *)

Definition naive (y mo d h mi s us : Z) : datetime :=
  new_datetime (new_wallclock y mo d h mi s us) None.

(** A time zone at a fixed offset of [minutes] east of UTC. *)
Definition fixed_offset (minutes : Z) : tzinfo :=
  new_tzinfo (fun _ => Some (Datetime.new_delta 0 (minutes * 60) 0)).

Definition aware (y mo d h mi s us : Z) (tz : tzinfo) : datetime :=
  new_datetime (new_wallclock y mo d h mi s us) (Some tz).

(** A column that stores values as they are. *)
Definition plain_column : Column := new_Column (fun v => Ok v).

(** ** What the documentation says, in its own words *)

Module Spec.

(** Microseconds on the clock of [w] since 1970-01-01 00:00:00 on the same
    clock. *)
Definition wall_microseconds (w : wallclock) : Z :=
  ((Datetime.ymd_to_ord (year w) (month w) (day w) - 719163) * 86400 +
   hour w * 3600 + minute w * 60 + second w) * 1000000 + microsecond w.

(** [(inputTimestamp - epoch).totalSeconds()], the epoch being 1970-01-01 in
    the timezone representation of the input. *)
Definition elapsed_seconds (t : datetime) : PyFloat.float :=
  PyFloat.true_divide (wall_microseconds (wall t)) 1000000.

(** [offsetSeconds]: the UTC offset of that epoch in seconds, 0 if naive. *)
Definition offset_seconds (t : datetime) : result PyFloat.float :=
  match dt_tzinfo t with
  | None => Ok (PyFloat.of_int 0)
  | Some tz =>
      match utcoffset tz (new_wallclock 1970 1 1 0 0 0 0) with
      | Some td => Ok (Datetime.total_seconds td)
      | None => Raise AttributeError
      end
  end.

(** The timestamp is naive, or its [tzinfo] answers [utcoffset] for the
    epoch with a [timedelta]. *)
Definition offset_defined (t : datetime) : bool :=
  match dt_tzinfo t with
  | None => true
  | Some tz =>
      match utcoffset tz (new_wallclock 1970 1 1 0 0 0 0) with
      | Some td => Datetime.valid_delta td
      | None => false
      end
  end.

(** The integer as the component design words it: the seconds are truncated
    toward zero, then multiplied by 1000. *)
Definition truncate_then_scale (t : datetime) : result Z :=
  offset <-- offset_seconds t ;;
  s <-- PyFloat.long (PyFloat.sub (elapsed_seconds t) offset) ;;
  Ok (s * 1000).

(** The integer with the product taken first: the seconds are multiplied by
    1000, then truncated toward zero. *)
Definition scale_then_truncate (t : datetime) : result Z :=
  offset <-- offset_seconds t ;;
  PyFloat.long
    (PyFloat.mul (PyFloat.sub (elapsed_seconds t) offset) (PyFloat.of_int 1000)).

(** [round(t.secondsSinceEpoch() * 1000)] and its truncating counterpart,
    for a timestamp without timezone offset. *)
Definition rounded_milliseconds (t : datetime) : result Z :=
  PyFloat.round (PyFloat.mul (elapsed_seconds t) (PyFloat.of_int 1000)).

Definition truncated_milliseconds (t : datetime) : result Z :=
  PyFloat.long (PyFloat.mul (elapsed_seconds t) (PyFloat.of_int 1000)).

(** The instant a timestamp denotes, in microseconds since 1970-01-01
    00:00:00 UTC: the clock reading less the UTC offset in force at that
    reading; a naive timestamp reads UTC. *)
Definition utc_microseconds (t : datetime) : option Z :=
  match dt_tzinfo t with
  | None => Some (wall_microseconds (wall t))
  | Some tz =>
      td ← utcoffset tz (wall t);
      Some (wall_microseconds (wall t) - Datetime.delta_to_microseconds td)
  end.

Definition same_instant (t1 t2 : datetime) : Prop :=
  is_Some (utc_microseconds t1) ∧ utc_microseconds t1 = utc_microseconds t2.

(** Whole seconds on the clock of [w] since 1970-01-01 00:00:00 on the
    same clock. *)
Definition wall_seconds (w : wallclock) : Z :=
  (Datetime.ymd_to_ord (year w) (month w) (day w) - 719163) * 86400 +
  hour w * 3600 + minute w * 60 + second w.

(** The UTC offset at the epoch in whole seconds, when it is a whole number
    of seconds within a day; 0 for a naive timestamp. *)
Definition whole_offset (t : datetime) : option Z :=
  match dt_tzinfo t with
  | None => Some 0
  | Some tz =>
      match utcoffset tz (new_wallclock 1970 1 1 0 0 0 0) with
      | Some td =>
          let o := days td * 86400 + seconds td in
          if (microseconds td =? 0) && (Z.abs o <? 86400) then Some o else None
      | None => None
      end
  end.

(** The time zone answers for the timestamp as it does for the epoch: no
    change of offset in between. *)
Definition offset_constant (t : datetime) : Prop :=
  ∀ tz, dt_tzinfo t = Some tz →
        utcoffset tz (wall t) = utcoffset tz (new_wallclock 1970 1 1 0 0 0 0).

(** The one ordered sequence both call shapes of [Token] come down to: a
    single argument that is itself a sequence is unwrapped, otherwise the
    argument list is the sequence. *)
Definition normalized (args : list pyval) : list pyval :=
  match args with
  | [PyList xs] | [PyTuple xs] => xs
  | _ => args
  end.

(** The placeholder markers [:c], [:c+1], ..., [:c+n-1]. *)
Definition markers (c n : Z) : list string :=
  (fun i => ":" +:+ str_int (c + i)) <$> seqZ 0 n.

(** The context keys [str(c)], ..., [str(c+n-1)]. *)
Definition keys (c n : Z) : list string :=
  (fun i => str_int (c + i)) <$> seqZ 0 n.

(** [populate] rejected the call: an exception, and the context as it
    was. *)
Definition rejects (m : M unit) (ctx : context) : Prop :=
  ∃ e, m ctx = (Raise e, ctx).

End Spec.

(** A time zone with daylight saving: one hour east of UTC from April to
    October, on UTC otherwise. *)
Definition summer_time : tzinfo :=
  new_tzinfo (fun w =>
    if (4 <=? month w) && (month w <=? 10)
    then Some (Datetime.new_delta 0 3600 0)
    else Some (Datetime.new_delta 0 0 0)).

(** ** Notions of the proofs *)

(** A float of magnitude below [2^k]: a zero, or finite with mantissa and
    exponent that stay under [2^k]. *)
Definition small (k : Z) (x : SpecFloat.spec_float) : Prop :=
  match x with
  | SpecFloat.S754_zero _ => True
  | SpecFloat.S754_finite _ m e => SpecFloat.Zdigits2 (Zpos m) + e ≤ k
  | _ => False
  end.

(** The float of a positive integer [n] below [2^53], with sign [s]. *)
Definition canonical (s : bool) (n : Z) : SpecFloat.spec_float :=
  SpecFloat.S754_finite s
    (Z.to_pos (n * 2 ^ (53 - SpecFloat.Zdigits2 n)))
    (SpecFloat.Zdigits2 n - 53).

(** The float [x] is the integer [n], exactly. *)
Definition represents (x : SpecFloat.spec_float) (n : Z) : Prop :=
  match n with
  | Z0 => ∃ s, x = SpecFloat.S754_zero s
  | Zpos p => x = canonical false (Zpos p)
  | Zneg p => x = canonical true (Zpos p)
  end.

(** The body of the loop of [Token.update_context], for the pair at index
    [i]. *)
Definition bind_pair (cid : option Z) (p : Z * (Column * pyval)) : M unit :=
  let '(i, (col, val)) := p in
  v <- lift (to_database col val) ;;
  k <- lift (add_int cid i) ;;
  setitem (str_int k) v.

(** [enumerate] from a start index. *)
Definition enumerate_from {A} (s : Z) (l : list A) : list (Z * A) :=
  zip (seqZ s (Z.of_nat (length l))) l.

(** * Properties *)

(** ** The runtime *)

Lemma str_int_inj (a b : Z) : str_int a = str_int b → a = b.
Proof. unfold str_int. apply (inj pretty). Qed.

Lemma append_empty (s : string) : s +:+ "" = s.
Proof. induction s as [|c s IH]; [done|]. rewrite <- IH at 2. reflexivity. Qed.

Lemma format_placeholder (s : string) : format ":{}" s = ":" +:+ s.
Proof. rewrite <- (append_empty s) at 2. reflexivity. Qed.

Lemma format_min (s : string) :
  format MinTimeUUID.format_string s = "MinTimeUUID(:" +:+ s +:+ ")".
Proof. reflexivity. Qed.

Lemma format_max (s : string) :
  format MaxTimeUUID.format_string s = "MaxTimeUUID(:" +:+ s +:+ ")".
Proof. reflexivity. Qed.

Lemma format_token (s : string) : format "token({})" s = "token(" +:+ s +:+ ")".
Proof. reflexivity. Qed.

Lemma length_chars (s : string) :
  length (list_ascii_of_string s) = String.length s.
Proof. induction s as [|c s IH]; simpl; congruence. Qed.

(** [len] counts what [iter] yields. *)
Lemma len_iter (v : pyval) (items : list pyval) :
  iter v = Ok items → len v = Ok (Z.of_nat (length items)).
Proof.
  destruct v; simpl; intros H; try discriminate; injection H as <-;
    try reflexivity.
  by rewrite length_map, length_chars.
Qed.

Lemma iter_len (v : pyval) (n : Z) :
  len v = Ok n → ∃ items, iter v = Ok items ∧ n = Z.of_nat (length items).
Proof.
  destruct v; simpl; intros H; try discriminate; injection H as <-;
    eexists; split; try reflexivity.
  by rewrite length_map, length_chars.
Qed.

(** Subtracting the integer 0 leaves a float as it is. *)
Lemma sub_zero (x : PyFloat.float) : PyFloat.sub x (PyFloat.of_int 0) = x.
Proof.
  unfold PyFloat.sub.
  rewrite <- (FloatAxioms.SF2Prim_Prim2SF (PrimFloat.sub x (PyFloat.of_int 0))).
  rewrite FloatAxioms.sub_spec.
  rewrite <- (FloatAxioms.SF2Prim_Prim2SF x) at 2. f_equal.
  change (FloatOps.Prim2SF (PyFloat.of_int 0)) with (SpecFloat.S754_zero false).
  destruct (FloatOps.Prim2SF x) as [[]|[]| |]; reflexivity.
Qed.

(** ** Floats: magnitude and rounding *)

Module FloatFacts.
Import SpecFloat FloatOps.

Lemma digits2_pos_size (p : positive) : digits2_pos p = Pos.size p.
Proof. induction p; simpl; congruence. Qed.

Lemma Zdigits2_log2 (m : Z) : 0 < m → Zdigits2 m = Z.log2 m + 1.
Proof.
  destruct m as [|p|p]; try lia. intros _. simpl.
  rewrite digits2_pos_size. destruct p; simpl; lia.
Qed.

Lemma Zdigits2_nonneg (m : Z) : 0 ≤ Zdigits2 m.
Proof. destruct m; simpl; lia. Qed.

Lemma Zdigits2_pos (m : Z) : 0 < m → 0 < Zdigits2 m.
Proof. destruct m; simpl; lia. Qed.

Lemma iter_pos_iter {A} (f : A → A) (n : positive) (x : A) :
  iter_pos f n x = Pos.iter f x n.
Proof.
  revert x. induction n as [n IH|n IH|]; intros x; simpl.
  - rewrite !IH. by rewrite !Pos.iter_swap.
  - by rewrite !IH.
  - reflexivity.
Qed.

Lemma shr_1_m (r : shr_record) : 0 ≤ shr_m r → shr_m (shr_1 r) = Z.div2 (shr_m r).
Proof.
  destruct r as [m rb sb]. simpl. destruct m as [|[p|p|]|p]; simpl; try lia; reflexivity.
Qed.

Lemma shr_iter_m (n : positive) (r : shr_record) :
  0 ≤ shr_m r → shr_m (iter_pos shr_1 n r) = Z.shiftr (shr_m r) (Zpos n).
Proof.
  intros Hr. rewrite iter_pos_iter.
  change (Z.shiftr (shr_m r) (Zpos n)) with (Pos.iter Z.div2 (shr_m r) n).
  revert r Hr. induction n as [|n IH] using Pos.peano_ind; intros r Hr.
  - simpl. by apply shr_1_m.
  - rewrite !Pos.iter_succ. rewrite <- IH by done.
    apply shr_1_m. rewrite IH by done.
    change (Pos.iter Z.div2 (shr_m r) n) with (Z.shiftr (shr_m r) (Zpos n)).
    apply Z.shiftr_nonneg. done.
Qed.

Lemma shr_record_of_loc_m (m : Z) (l : location) : shr_m (shr_record_of_loc m l) = m.
Proof. destruct l as [|[]]; reflexivity. Qed.

(** [shr_fexp]: mantissa and exponent. *)
Lemma shr_fexp_spec (m e : Z) (l : location) :
  0 ≤ m →
  let n := fexp prec emax (Zdigits2 m + e) - e in
  shr_m (shr_fexp prec emax m e l).1 = Z.shiftr m (Z.max n 0) ∧
  (shr_fexp prec emax m e l).2 = e + Z.max n 0.
Proof.
  intros Hm n. unfold shr_fexp. fold n. unfold shr.
  destruct n as [|p|p] eqn:Hn; simpl.
  - rewrite shr_record_of_loc_m. split; [reflexivity|lia].
  - rewrite shr_iter_m by (rewrite shr_record_of_loc_m; done).
    rewrite shr_record_of_loc_m. split; reflexivity.
  - rewrite shr_record_of_loc_m. split; [reflexivity|lia].
Qed.

Lemma round_nearest_even_bounds (m : Z) (l : location) :
  m ≤ round_nearest_even m l ≤ m + 1.
Proof. destruct l as [|[]]; simpl; try lia. destruct (Z.even m); lia. Qed.

Lemma Zdigits2_shiftr (m n : Z) :
  0 ≤ m → 0 ≤ n → 0 < Z.shiftr m n → Zdigits2 (Z.shiftr m n) = Zdigits2 m - n.
Proof.
  intros Hm Hn Hs.
  assert (0 < m).
  { destruct (Z.eq_dec m 0) as [->|]; [|lia]. rewrite Z.shiftr_0_l in Hs. lia. }
  rewrite !Zdigits2_log2 by done.
  rewrite Z.log2_shiftr by done.
  assert (n ≤ Z.log2 m); [|lia].
  destruct (Z.le_gt_cases n (Z.log2 m)) as [|Hgt]; [done|].
  rewrite Z.shiftr_eq_0 in Hs; lia.
Qed.

Lemma Zdigits2_le (a b : Z) : 0 ≤ a ≤ b → Zdigits2 a ≤ Zdigits2 b.
Proof.
  intros [Ha Hab]. destruct (Z.eq_dec a 0) as [->|].
  - apply Zdigits2_nonneg.
  - rewrite !Zdigits2_log2 by lia. pose proof (Z.log2_le_mono a b Hab). lia.
Qed.

Lemma Zdigits2_succ (m : Z) : 0 ≤ m → Zdigits2 (m + 1) ≤ Zdigits2 m + 1.
Proof.
  intros Hm. destruct (Z.eq_dec m 0) as [->|]; [simpl; lia|].
  rewrite !Zdigits2_log2 by lia.
  pose proof (Z.log2_succ_le m). unfold Z.succ in *. lia.
Qed.

Lemma fexp_mono (a b : Z) : a ≤ b → fexp prec emax a ≤ fexp prec emax b.
Proof. unfold fexp. lia. Qed.

Lemma fexp_le (a : Z) : a ≤ emax → fexp prec emax a ≤ emax - prec.
Proof.
  pose proof (eq_refl : prec = 53). pose proof (eq_refl : emax = 1024).
  unfold fexp, SpecFloat.emin. lia.
Qed.

Lemma binary_round_aux_small (s : bool) (m e : Z) (l : location) (k : Z) :
  0 ≤ m → e ≤ emax - prec → Zdigits2 m + e ≤ k → SpecFloat.emin prec emax ≤ k → k < emax →
  small (k + 1) (binary_round_aux prec emax s m e l).
Proof.
  intros Hm He Hk Hkmin Hkmax. unfold binary_round_aux.
  pose proof (eq_refl : prec = 53) as Hprec.
  pose proof (eq_refl : emax = 1024) as Hemax.
  pose proof (shr_fexp_spec m e l Hm) as [Hm1 He1].
  destruct (shr_fexp prec emax m e l) as [mrs1 e1]. simpl in Hm1, He1.
  set (m2 := round_nearest_even (shr_m mrs1) (loc_of_shr_record mrs1)).
  set (n1 := Z.max (fexp prec emax (Zdigits2 m + e) - e) 0) in *.
  assert (Hn1 : 0 ≤ n1) by lia.
  assert (Hm1' : 0 ≤ shr_m mrs1) by (rewrite Hm1; by apply Z.shiftr_nonneg).
  pose proof (round_nearest_even_bounds (shr_m mrs1) (loc_of_shr_record mrs1)) as Hr.
  fold m2 in Hr.
  assert (Hm2 : 0 ≤ m2) by lia.
  pose proof (shr_fexp_spec m2 e1 loc_Exact Hm2) as [Hm3 He3].
  destruct (shr_fexp prec emax m2 e1 loc_Exact) as [mrs3 e3]. simpl in Hm3, He3.
  set (n2 := Z.max (fexp prec emax (Zdigits2 m2 + e1) - e1) 0) in *.
  (* digits after the first shift and the rounding *)
  assert (HE1 : Zdigits2 (shr_m mrs1) + e1 ≤ k).
  { destruct (Z.eq_dec (shr_m mrs1) 0) as [->|Hnz].
    - simpl. rewrite He1. unfold n1.
      pose proof (Zdigits2_nonneg m). unfold fexp, SpecFloat.emin in *. lia.
    - rewrite Hm1, Zdigits2_shiftr by (rewrite <- ?Hm1; lia). lia. }
  assert (HE2 : Zdigits2 m2 + e1 ≤ k + 1).
  { pose proof (Zdigits2_le m2 (shr_m mrs1 + 1) ltac:(lia)).
    pose proof (Zdigits2_succ (shr_m mrs1) Hm1'). lia. }
  assert (He1' : e1 ≤ emax - prec).
  { rewrite He1. unfold n1. pose proof (fexp_le (Zdigits2 m + e)). lia. }
  assert (He3' : e3 ≤ emax - prec).
  { rewrite He3. unfold n2. pose proof (fexp_le (Zdigits2 m2 + e1)). lia. }
  destruct (shr_m mrs3) as [|p|p] eqn:Hp.
  - exact I.
  - pose proof He3' as He3b. apply Z.leb_le in He3b. rewrite He3b.
    change (Zdigits2 (Zpos p) + e3 ≤ k + 1).
    rewrite Hm3, Zdigits2_shiftr by (rewrite <- ?Hm3; lia). lia.
  - pose proof (proj2 (Z.shiftr_nonneg m2 n2) Hm2). lia.
Qed.


Lemma Zdigits2_shiftr_0 (m n : Z) :
  0 ≤ m → 0 ≤ n → Z.shiftr m n = 0 → Zdigits2 m ≤ n.
Proof.
  intros Hm Hn Hs. destruct (Z.eq_dec m 0) as [->|]; [simpl; lia|].
  rewrite Zdigits2_log2 by lia.
  apply Z.shiftr_eq_0_iff in Hs as [->|[_ ?]]; lia.
Qed.

(** The result of rounding is a float in canonical form. *)
Lemma binary_round_aux_valid (s : bool) (m e : Z) (l : location) :
  0 ≤ m → e ≤ fexp prec emax (Zdigits2 m + e) →
  valid_binary prec emax (binary_round_aux prec emax s m e l) = true.
Proof.
  intros Hm He. unfold binary_round_aux.
  pose proof (eq_refl : prec = 53) as Hprec.
  pose proof (eq_refl : emax = 1024) as Hemax.
  pose proof (shr_fexp_spec m e l Hm) as [Hm1 He1].
  destruct (shr_fexp prec emax m e l) as [mrs1 e1]. simpl in Hm1, He1.
  set (m2 := round_nearest_even (shr_m mrs1) (loc_of_shr_record mrs1)).
  set (E := Zdigits2 m + e) in *.
  set (n1 := Z.max (fexp prec emax E - e) 0) in *.
  assert (Hn1 : 0 ≤ n1) by lia.
  assert (Hm1' : 0 ≤ shr_m mrs1) by (rewrite Hm1; by apply Z.shiftr_nonneg).
  pose proof (round_nearest_even_bounds (shr_m mrs1) (loc_of_shr_record mrs1)) as Hr.
  fold m2 in Hr.
  assert (Hm2 : 0 ≤ m2) by lia.
  pose proof (shr_fexp_spec m2 e1 loc_Exact Hm2) as [Hm3 He3].
  destruct (shr_fexp prec emax m2 e1 loc_Exact) as [mrs3 e3]. simpl in Hm3, He3.
  set (n2 := Z.max (fexp prec emax (Zdigits2 m2 + e1) - e1) 0) in *.
  destruct (shr_m mrs3) as [|p|p] eqn:Hp; try reflexivity.
  destruct (e3 <=? emax - prec) eqn:Hfit; [|reflexivity].
  unfold valid_binary, bounded. rewrite Hfit, andb_true_r.
  unfold canonical_mantissa. apply Z.eqb_eq.
  change (Zpos (digits2_pos p)) with (Zdigits2 (Zpos p)).
  assert (He1f : e1 = fexp prec emax E) by lia.
  assert (Hm2pos : 0 < m2).
  { destruct (Z.eq_dec m2 0) as [Hz|]; [|lia].
    rewrite Hz, Z.shiftr_0_l in Hm3. discriminate. }
  assert (HE : E ≤ Zdigits2 m2 + e1).
  { destruct (Z.eq_dec (shr_m mrs1) 0) as [Hz|Hnz].
    - rewrite Hm1 in Hz. pose proof (Zdigits2_shiftr_0 m n1 Hm Hn1 Hz).
      pose proof (Zdigits2_pos m2 Hm2pos). unfold E. lia.
    - pose proof (Zdigits2_le (shr_m mrs1) m2 ltac:(lia)) as Hle.
      rewrite Hm1, Zdigits2_shiftr in Hle by (rewrite <- ?Hm1; lia).
      unfold E. lia. }
  pose proof (fexp_mono _ _ HE) as Hmono.
  assert (He3f : e3 = fexp prec emax (Zdigits2 m2 + e1)) by lia.
  rewrite Hm3, Zdigits2_shiftr by (rewrite <- ?Hm3; lia).
  replace (Zdigits2 m2 - n2 + e3) with (Zdigits2 m2 + e1) by lia.
  by rewrite <- He3f.
Qed.

(** ** Division of integers *)

Lemma div_core (mx my : positive) :
  let '(q, e, _) := SFdiv_core_binary prec emax (Zpos mx) 0 (Zpos my) 0 in
  0 ≤ q ∧ e ≤ 0 ∧
  e ≤ fexp prec emax (Zdigits2 q + e) ∧
  Zdigits2 q + e ≤ Zdigits2 (Zpos mx).
Proof.
  unfold SFdiv_core_binary.
  pose proof (eq_refl : prec = 53) as Hprec.
  pose proof (eq_refl : emax = 1024) as Hemax.
  set (d1 := Zdigits2 (Zpos mx)). set (d2 := Zdigits2 (Zpos my)).
  rewrite !Z.add_0_r, Z.sub_0_r.
  set (e := Z.min (fexp prec emax (d1 - d2)) 0).
  set (s := 0 - e).
  assert (Hs : 0 ≤ s) by (unfold s, e; lia).
  assert (Hm' : match s with Zpos _ => Z.shiftl (Zpos mx) s | Z0 => Zpos mx
                | Zneg _ => 0 end = Z.shiftl (Zpos mx) s).
  { destruct s; try lia; reflexivity. }
  rewrite Hm'. clear Hm'.
  set (m' := Z.shiftl (Zpos mx) s).
  pose proof (Z.div_eucl_eq m' (Zpos my) ltac:(lia)) as Hdiv.
  pose proof (Z.mod_pos_bound m' (Zpos my) ltac:(lia)) as Hmod.
  unfold Z.modulo in Hmod.
  destruct (Z.div_eucl m' (Zpos my)) as [q r]. simpl in Hmod.
  assert (Hm'pos : 0 < m').
  { unfold m'. rewrite Z.shiftl_mul_pow2 by done.
    pose proof (Z.pow_pos_nonneg 2 s). lia. }
  assert (Hd1 : Zdigits2 m' = d1 + s).
  { unfold m'. rewrite Zdigits2_log2 by done.
    rewrite Z.log2_shiftl by lia. unfold d1. rewrite Zdigits2_log2; lia. }
  assert (Hq : 0 ≤ q) by nia.
  assert (Hqm : q ≤ m') by nia.
  split; [done|]. split; [unfold e; lia|].
  pose proof (Zdigits2_le q m' ltac:(lia)) as Hqd.
  split; [|unfold s in *; lia].
  (* enough digits in the quotient *)
  assert (Hlow : d1 + s - d2 ≤ Zdigits2 q).
  { pose proof (Zdigits2_nonneg q).
    destruct (Z.le_gt_cases (d1 + s - d2) 0) as [|Hgt]; [lia|].
    set (a := d1 + s - d2 - 1).
    assert (Hpow : 2 ^ a ≤ q).
    { pose proof (Z.log2_spec m' Hm'pos) as [Hlo _].
      pose proof (Z.log2_spec (Zpos my) ltac:(lia)) as [_ Hhi].
      assert (Hl1 : Z.log2 m' = d1 + s - 1) by (rewrite Zdigits2_log2 in Hd1; lia).
      assert (Hl2 : Z.succ (Z.log2 (Zpos my)) = d2)
        by (unfold d2; rewrite Zdigits2_log2; lia).
      rewrite Hl1 in Hlo. rewrite Hl2 in Hhi.
      assert (Hsplit : 2 ^ (d1 + s - 1) = 2 ^ a * 2 ^ d2).
      { rewrite <- Z.pow_add_r; [f_equal; unfold a; lia|unfold a; lia|].
        unfold d2. apply Zdigits2_nonneg. }
      pose proof (Z.pow_pos_nonneg 2 a ltac:(lia) ltac:(unfold a; lia)).
      nia. }
    assert (0 < q) by (pose proof (Z.pow_pos_nonneg 2 a ltac:(lia) ltac:(unfold a; lia)); lia).
    rewrite Zdigits2_log2 by done.
    pose proof (Z.log2_le_mono _ _ Hpow) as Hl.
    rewrite Z.log2_pow2 in Hl by (unfold a; lia). unfold a in Hl. lia. }
  assert (Hfe : fexp prec emax (d1 - d2) ≤ fexp prec emax (Zdigits2 q + e)).
  { apply fexp_mono. unfold s in *. lia. }
  unfold e at 1. lia.
Qed.


Lemma small_mono (k k' : Z) (x : spec_float) : k ≤ k' → small k x → small k' x.
Proof. destruct x; simpl; try done. lia. Qed.

Lemma Zdigits2_lt_pow2 (m k : Z) : 0 < m → m < 2 ^ k → Zdigits2 m ≤ k.
Proof.
  intros Hm Hk. rewrite Zdigits2_log2 by done.
  destruct (Z.le_gt_cases k (Z.log2 m)) as [Hle|]; [|lia].
  pose proof (Z.log2_spec m Hm) as [Hlo _].
  assert (0 ≤ k).
  { destruct (Z.le_gt_cases 0 k); [done|]. rewrite Z.pow_neg_r in Hk; lia. }
  pose proof (Z.pow_le_mono_r 2 k (Z.log2 m) ltac:(lia) Hle). lia.
Qed.

(** The quotient of two integers is the rounded float, and no larger than
    the dividend. *)
Lemma true_divide_small (a b k : Z) :
  0 < b → Z.abs a < 2 ^ k → 0 ≤ k < emax →
  small (k + 1) (Prim2SF (PyFloat.true_divide a b)).
Proof.
  intros Hb Ha Hk. unfold PyFloat.true_divide.
  pose proof (eq_refl : prec = 53) as Hprec.
  pose proof (eq_refl : emax = 1024) as Hemax.
  destruct b as [|mb|mb]; try lia.
  assert (Hgen : ∀ (s : bool) (ma : positive), Z.pos ma < 2 ^ k →
            small (k + 1)
              (Prim2SF (SF2Prim (SFdiv prec emax (S754_finite s ma 0)
                                       (S754_finite false mb 0))))).
  { intros s ma Hma. unfold SFdiv.
    pose proof (div_core ma mb) as Hcore.
    destruct (SFdiv_core_binary prec emax (Z.pos ma) 0 (Z.pos mb) 0)
      as [[q e] l].
    destruct Hcore as (Hq & He & Hfexp & Hdig).
    rewrite FloatAxioms.Prim2SF_SF2Prim by (by apply binary_round_aux_valid).
    apply binary_round_aux_small; try lia.
    - pose proof (Zdigits2_lt_pow2 (Z.pos ma) k ltac:(lia) Hma). lia.
    - unfold SpecFloat.emin. lia. }
  destruct a as [|ma|ma]; simpl PyFloat.exact.
  - vm_compute. exact I.
  - apply Hgen. lia.
  - apply Hgen. lia.
Qed.

(** ** Multiplication and subtraction *)

Lemma Zdigits2_mul (a b : positive) :
  Zdigits2 (Zpos (a * b)) ≤ Zdigits2 (Zpos a) + Zdigits2 (Zpos b).
Proof.
  rewrite Pos2Z.inj_mul. rewrite !Zdigits2_log2 by lia.
  pose proof (Z.log2_mul_above (Zpos a) (Zpos b) ltac:(lia) ltac:(lia)). lia.
Qed.

Lemma SFmul_small (x y : spec_float) (kx ky : Z) :
  small kx x → small ky y → 0 ≤ kx + ky ≤ 900 →
  small (kx + ky + 1) (SFmul prec emax x y).
Proof.
  intros Hx Hy Hk.
  pose proof (eq_refl : prec = 53) as Hprec.
  pose proof (eq_refl : emax = 1024) as Hemax.
  destruct x as [sx|sx| |sx mx ex], y as [sy|sy| |sy my ey];
    cbn [small] in Hx, Hy; try done; simpl SFmul; try exact I.
  pose proof (Zdigits2_mul mx my).
  pose proof (Zdigits2_pos (Zpos mx) ltac:(lia)).
  pose proof (Zdigits2_pos (Zpos my) ltac:(lia)).
  apply binary_round_aux_small; try lia.
  unfold SpecFloat.emin. lia.
Qed.

Lemma shl_align_spec (m : positive) (e e' : Z) :
  let '(m', e'') := shl_align m e e' in
  Zdigits2 (Zpos m') + e'' = Zdigits2 (Zpos m) + e ∧
  e'' ≤ e ∧ (e' ≤ e → e'' = e') ∧
  Zpos m' = Zpos m * 2 ^ (e - e'').
Proof.
  unfold shl_align. destruct (e' - e) as [|d|d] eqn:Hd.
  - rewrite Z.sub_diag. simpl Z.pow. split; [done|]. split; [done|]. split; lia.
  - rewrite Z.sub_diag. simpl Z.pow. split; [done|]. split; [done|]. split; lia.
  - assert (Hsh : Zpos (Pos.iter xO m d) = Z.shiftl (Zpos m) (Zpos d)).
    { change (Z.shiftl (Zpos m) (Zpos d)) with (Pos.iter (Z.mul 2) (Zpos m) d).
      by apply Pos.iter_swap_gen. }
    rewrite Hsh. rewrite !Zdigits2_log2.
    + rewrite Z.log2_shiftl by lia. rewrite Z.shiftl_mul_pow2 by lia.
      replace (e - e') with (Zpos d) by lia. repeat split; lia.
    + lia.
    + rewrite Z.shiftl_mul_pow2 by lia. pose proof (Z.pow_pos_nonneg 2 (Zpos d)). lia.
Qed.

Lemma binary_normalize_small (m e k : Z) :
  Zdigits2 m + e ≤ k → e ≤ emax - prec → SpecFloat.emin prec emax ≤ k → k < emax →
  small (k + 1) (binary_normalize prec emax m e false).
Proof.
  intros Hk He Hkmin Hkmax.
  assert (Hgen : ∀ (s : bool) (p : positive), Zdigits2 (Zpos p) + e ≤ k →
            small (k + 1) (binary_round prec emax s p e)).
  { intros s p Hp. unfold binary_round.
    pose proof (shl_align_spec p e (fexp prec emax (Zpos (digits2_pos p) + e)))
      as Hal.
    destruct (shl_align p e _) as [mz ez].
    destruct Hal as (Hd & Hle & _ & _).
    apply binary_round_aux_small; lia. }
  destruct m as [|p|p]; simpl binary_normalize.
  - exact I.
  - by apply Hgen.
  - by apply Hgen.
Qed.

Lemma Zdigits2_abs_le (a b k : Z) :
  Zdigits2 a ≤ k → Zdigits2 b ≤ k → 0 ≤ a → 0 ≤ b → ∀ c, Z.abs c ≤ a + b →
  Zdigits2 c ≤ k + 1.
Proof.
  intros Ha Hb Ha0 Hb0 c Hc.
  assert (Hcabs : Zdigits2 c = Zdigits2 (Z.abs c)) by (by destruct c).
  rewrite Hcabs.
  assert (Hmax : a + b ≤ 2 * Z.max a b) by lia.
  pose proof (Zdigits2_le (Z.abs c) (2 * Z.max a b) ltac:(lia)) as Hle.
  destruct (Z.eq_dec (Z.max a b) 0) as [Hz|Hnz].
  - rewrite Hz in Hle. simpl in Hle. pose proof (Zdigits2_nonneg a). lia.
  - assert (Hd : Zdigits2 (2 * Z.max a b) = Zdigits2 (Z.max a b) + 1).
    { rewrite !Zdigits2_log2 by lia. rewrite Z.log2_double by lia. lia. }
    destruct (Z.max_spec a b) as [[_ Hm]|[_ Hm]]; rewrite Hm in *; lia.
Qed.

Lemma SFsub_small (x y : spec_float) (k : Z) :
  small k x → small k y → 0 ≤ k ≤ 900 →
  small (k + 2) (SFsub prec emax x y).
Proof.
  intros Hx Hy Hk.
  pose proof (eq_refl : prec = 53) as Hprec.
  pose proof (eq_refl : emax = 1024) as Hemax.
  destruct x as [sx|sx| |sx mx ex], y as [sy|sy| |sy my ey];
    cbn [small] in Hx, Hy; try done; simpl SFsub.
  - by destruct sx, sy.
  - cbn [small]. lia.
  - cbn [small]. lia.
  - pose proof (shl_align_spec mx ex (Z.min ex ey)) as Hax.
    pose proof (shl_align_spec my ey (Z.min ex ey)) as Hay.
    destruct (shl_align mx ex (Z.min ex ey)) as [mx' ex'].
    destruct (shl_align my ey (Z.min ex ey)) as [my' ey'].
    destruct Hax as (Hdx & _ & Hex & _). destruct Hay as (Hdy & _ & Hey & _).
    specialize (Hex ltac:(lia)). specialize (Hey ltac:(lia)). subst ex' ey'.
    simpl fst.
    pose proof (Zdigits2_pos (Zpos mx) ltac:(lia)).
    pose proof (Zdigits2_pos (Zpos my) ltac:(lia)).
    replace (k + 2) with ((k + 1) + 1) by lia.
    apply binary_normalize_small; try lia; [|unfold SpecFloat.emin; lia].
    set (c := cond_Zopp sx (Zpos mx') - cond_Zopp sy (Zpos my')).
    pose proof (Zdigits2_abs_le (Zpos mx') (Zpos my') (k - Z.min ex ey)
                  ltac:(lia) ltac:(lia) ltac:(lia) ltac:(lia) c) as Hc.
    assert (Z.abs c ≤ Zpos mx' + Zpos my') by (unfold c; destruct sx, sy; simpl; lia).
    specialize (Hc ltac:(done)). lia.
Qed.

(** A float of bounded magnitude converts to an integer. *)
Lemma long_small (x : PyFloat.float) (k : Z) :
  small k (Prim2SF x) → ∃ n, PyFloat.long x = Ok n.
Proof.
  unfold PyFloat.long. destruct (Prim2SF x); simpl; try done; by eexists.
Qed.

End FloatFacts.

(** ** datetime *)

Lemma delta_to_microseconds_new_delta (d s us : Z) :
  Datetime.delta_to_microseconds (Datetime.new_delta d s us) =
  (d * 86400 + s) * 1000000 + us.
Proof.
  unfold Datetime.delta_to_microseconds, Datetime.new_delta. simpl.
  pose proof (Z.div_mod us 1000000 ltac:(lia)).
  pose proof (Z.div_mod (s + us / 1000000) 86400 ltac:(lia)).
  lia.
Qed.

(** The difference to the epoch built for a value counts the microseconds
    on the value's own clock. *)
Lemma sub_epoch (v : datetime) :
  Datetime.delta_to_microseconds
    (Datetime.sub v (Datetime.make 1970 1 1 (dt_tzinfo v))) =
  Spec.wall_microseconds (wall v).
Proof.
  unfold Datetime.sub. rewrite delta_to_microseconds_new_delta.
  unfold Spec.wall_microseconds, Datetime.make. simpl.
  change (Datetime.ymd_to_ord 1970 1 1) with 719163. lia.
Qed.

Lemma total_seconds_sub_epoch (v : datetime) :
  Datetime.total_seconds (Datetime.sub v (Datetime.make 1970 1 1 (dt_tzinfo v))) =
  Spec.elapsed_seconds v.
Proof.
  unfold Datetime.total_seconds, Spec.elapsed_seconds. by rewrite sub_epoch.
Qed.

Lemma days_before_month_bounds (y m : Z) : 0 ≤ Datetime.days_before_month y m ≤ 335.
Proof.
  unfold Datetime.days_before_month.
  assert (H : 0 ≤ nth (Z.to_nat m) Datetime._days_before_month 0 ≤ 334).
  { generalize (Z.to_nat m). intros n. unfold Datetime._days_before_month.
    do 13 (destruct n as [|n]; [simpl; lia|]). destruct n; simpl; lia. }
  destruct (_ && _); lia.
Qed.

Lemma days_in_month_bounds (y m : Z) : Datetime.days_in_month y m ≤ 31.
Proof.
  unfold Datetime.days_in_month. destruct (_ && _); [lia|].
  generalize (Z.to_nat m). intros n. unfold Datetime._days_in_month.
  do 13 (destruct n as [|n]; [simpl; lia|]). destruct n; simpl; lia.
Qed.

Lemma wall_microseconds_bound (w : wallclock) :
  Datetime.valid w = true → Z.abs (Spec.wall_microseconds w) < 2 ^ 59.
Proof.
  unfold Datetime.valid. rewrite !andb_true_iff.
  rewrite !Z.leb_le, !Z.ltb_lt.
  intros [[[[[[[[[[[[[? ?] ?] ?] ?] ?] ?] ?] ?] ?] ?] ?] ?] ?].
  pose proof (days_before_month_bounds (year w) (month w)).
  pose proof (days_in_month_bounds (year w) (month w)).
  unfold Spec.wall_microseconds, Datetime.ymd_to_ord, Datetime.days_before_year.
  change (2 ^ 59) with 576460752303423488.
  set (dbm := Datetime.days_before_month (year w) (month w)) in *.
  set (dim := Datetime.days_in_month (year w) (month w)) in *.
  clearbody dbm dim.
  pose proof (Z.div_pos (year w - 1) 4 ltac:(lia) ltac:(lia)).
  pose proof (Z.div_lt_upper_bound (year w - 1) 4 2500 ltac:(lia) ltac:(lia)).
  pose proof (Z.div_pos (year w - 1) 100 ltac:(lia) ltac:(lia)).
  pose proof (Z.div_lt_upper_bound (year w - 1) 100 100 ltac:(lia) ltac:(lia)).
  pose proof (Z.div_pos (year w - 1) 400 ltac:(lia) ltac:(lia)).
  pose proof (Z.div_lt_upper_bound (year w - 1) 400 25 ltac:(lia) ltac:(lia)).
  set (q4 := (year w - 1) `div` 4) in *.
  set (q100 := (year w - 1) `div` 100) in *.
  set (q400 := (year w - 1) `div` 400) in *.
  clearbody q4 q100 q400. lia.
Qed.

Lemma delta_microseconds_bound (td : timedelta) :
  Datetime.valid_delta td = true → Z.abs (Datetime.delta_to_microseconds td) < 2 ^ 67.
Proof.
  unfold Datetime.valid_delta. rewrite !andb_true_iff, !Z.leb_le, !Z.ltb_lt.
  intros [[[[[? ?] ?] ?] ?] ?]. unfold Datetime.delta_to_microseconds.
  change (2 ^ 67) with 147573952589676412928. lia.
Qed.

(** Every valid timestamp yields an integer: the floats stay finite. *)
Lemma scale_then_truncate_returns (t : datetime) :
  Datetime.valid (wall t) = true → Spec.offset_defined t = true →
  ∃ ms, Spec.scale_then_truncate t = Ok ms.
Proof.
  intros Hvalid Hoff.
  assert (Hel : small 68 (FloatOps.Prim2SF (Spec.elapsed_seconds t))).
  { apply (FloatFacts.small_mono 60); [lia|]. unfold Spec.elapsed_seconds.
    apply (FloatFacts.true_divide_small _ _ 59); [lia| |done].
    by apply wall_microseconds_bound. }
  assert (Hof : ∃ off, Spec.offset_seconds t = Ok off ∧ small 68 (FloatOps.Prim2SF off)).
  { unfold Spec.offset_defined in Hoff. unfold Spec.offset_seconds.
    destruct (dt_tzinfo t) as [tz|].
    - destruct (utcoffset tz _) as [td|]; [|discriminate].
      eexists. split; [reflexivity|]. unfold Datetime.total_seconds.
      apply (FloatFacts.true_divide_small _ _ 67); [lia| |done].
      by apply delta_microseconds_bound.
    - eexists. split; [reflexivity|]. vm_compute. exact I. }
  destruct Hof as (off & Hoff' & Hsmall).
  unfold Spec.scale_then_truncate. rewrite Hoff'. simpl.
  apply (FloatFacts.long_small _ 81). unfold PyFloat.mul, PyFloat.sub.
  rewrite FloatAxioms.mul_spec, FloatAxioms.sub_spec.
  apply (FloatFacts.SFmul_small _ _ 70 10); [|vm_compute; discriminate|lia].
  apply (FloatFacts.SFsub_small _ _ 68); [done|done|lia].
Qed.

(** ** Construction *)

(** C6. Constructing a time-range bound, [MinTimeUUID] or [MaxTimeUUID],
    from a value that is not a [datetime] (an integer, say) raises
    [ValidationError] from the constructor itself: no instance is
    returned. *)
Theorem time_bound_requires_datetime (value : pyval) :
  isinstance_datetime value = false →
  MinTimeUUID.__init__ value =
    Raise (ValidationError "datetime instance is required") ∧
  MaxTimeUUID.__init__ value =
    Raise (ValidationError "datetime instance is required").
Proof.
  intros H. unfold MinTimeUUID.__init__, MaxTimeUUID.__init__.
  rewrite H. by split.
Qed.

Lemma time_bound_requires_datetime_int :
  MinTimeUUID.__init__ (PyInt 5) =
    Raise (ValidationError "datetime instance is required") ∧
  MaxTimeUUID.__init__ (PyInt 5) =
    Raise (ValidationError "datetime instance is required").
Proof. apply (time_bound_requires_datetime (PyInt 5)). reflexivity. Defined.

(** A [datetime] is accepted and stored as it is, with no context id. *)
Lemma time_bound_accepts_datetime (d : datetime) :
  MinTimeUUID.__init__ (PyDatetime d) = Ok (QueryValue.new (PyDatetime d) None) ∧
  MaxTimeUUID.__init__ (PyDatetime d) = Ok (QueryValue.new (PyDatetime d) None).
Proof. by split. Qed.

(** The payload of a freshly built token is the normalized sequence. *)
Lemma token_init_iter (args : list pyval) :
  iter (Token.value (Token.__init__ args)) = Ok (Spec.normalized args).
Proof.
  destruct args as [|v [|w args]]; try reflexivity; destruct v; reflexivity.
Qed.

(** Unless the argument list is one list or tuple, it is the payload. *)
Lemma token_init_variadic (args : list pyval) :
  (∀ v, args = [v] → isinstance_list_tuple v = false) →
  Token.value (Token.__init__ args) = PyTuple args.
Proof.
  intros H. destruct args as [|v [|w args]]; try reflexivity.
  unfold Token.__init__, Token.value. simpl. by rewrite (H v eq_refl).
Qed.

(** C10. The single argument of [Token] is unwrapped only when it is a list
    or a tuple: a single argument of any other type, a string for one, stays
    wrapped, the payload has that one element and the context size is 1. *)
Theorem token_single_argument (v : pyval) :
  (isinstance_list_tuple v = false →
     Token.value (Token.__init__ [v]) = PyTuple [v] ∧
     iter (Token.value (Token.__init__ [v])) = Ok [v] ∧
     Token.get_context_size (Token.__init__ [v]) = Ok 1) ∧
  (isinstance_list_tuple v = true →
     Token.value (Token.__init__ [v]) = v).
Proof.
  unfold Token.__init__, Token.get_context_size, Token.value. simpl.
  split; intros ->; by repeat split.
Qed.

Lemma token_single_argument_string :
  (Token.value (Token.__init__ [PyStr "us-east"]) = PyTuple [PyStr "us-east"] ∧
   iter (Token.value (Token.__init__ [PyStr "us-east"])) = Ok [PyStr "us-east"] ∧
   Token.get_context_size (Token.__init__ [PyStr "us-east"]) = Ok 1) ∧
  Token.value (Token.__init__ [PyList [PyInt 1; PyInt 2]]) =
    PyList [PyInt 1; PyInt 2].
Proof.
  split.
  - apply (proj1 (token_single_argument (PyStr "us-east"))). reflexivity.
  - apply (proj2 (token_single_argument (PyList [PyInt 1; PyInt 2]))).
    reflexivity.
Defined.

(** Rendering and binding look at the payload through [len] and [iter]
    only. *)
Lemma token_unicode_ext (self self' : Token.t) :
  len (Token.value self) = len (Token.value self') →
  Token.context_id self = Token.context_id self' →
  Token.__unicode__ self = Token.__unicode__ self'.
Proof.
  intros Hl Hc. unfold Token.__unicode__, Token.get_context_size.
  by rewrite Hl, Hc.
Qed.

Lemma token_update_context_ext (self self' : Token.t) :
  iter (Token.value self) = iter (Token.value self') →
  Token.context_id self = Token.context_id self' →
  Token._columns self = Token._columns self' →
  Token.update_context self = Token.update_context self'.
Proof.
  intros Hi Hc Hcols. unfold Token.update_context.
  by rewrite Hi, Hc, Hcols.
Qed.

(** C7, as the public contract words it, at the sequence whose one element
    is the list of 1 and 2: passed as one argument it is the payload, of
    size 1; passed variadically its element is taken for the sequence, and
    the payload is 1 and 2, of size 2. *)
Lemma token_call_shapes_differ :
  let xs := [PyList [PyInt 1; PyInt 2]] in
  let single := Token.__init__ [PyList xs] in
  let variadic := Token.__init__ xs in
  iter (Token.value single) = Ok xs ∧
  iter (Token.value variadic) = Ok [PyInt 1; PyInt 2] ∧
  Token.get_context_size single = Ok 1 ∧
  Token.get_context_size variadic = Ok 2 ∧
  ¬ (iter (Token.value single) = iter (Token.value variadic)) ∧
  ¬ (Token.get_context_size single = Token.get_context_size variadic).
Proof. cbv zeta. repeat split; try reflexivity; intros H; discriminate H. Qed.

(** C7, amended. For a sequence [xs] of key components other than the
    sequence whose single element is itself a list or a tuple, [Token(xs)],
    with [xs] passed as one list or one tuple, and [Token( *xs)] hold the same
    payload sequence, hence have the same context size, the same text and
    the same effect on a context. *)
Theorem token_call_shapes (xs : list pyval) (seq : pyval) :
  (∀ v, xs = [v] → isinstance_list_tuple v = false) →
  seq = PyList xs ∨ seq = PyTuple xs →
  let single := Token.__init__ [seq] in
  let variadic := Token.__init__ xs in
  iter (Token.value single) = Ok xs ∧
  iter (Token.value variadic) = Ok xs ∧
  Token.get_context_size single = Token.get_context_size variadic ∧
  (∀ c, Token.__unicode__ (Token.set_context_id single c) =
        Token.__unicode__ (Token.set_context_id variadic c)) ∧
  (∀ columns c,
     Token.update_context
       (Token.set_context_id (Token.set_columns single columns) c) =
     Token.update_context
       (Token.set_context_id (Token.set_columns variadic columns) c)).
Proof.
  intros Hxs Hseq single variadic.
  assert (Hv : Token.value variadic = PyTuple xs)
    by (by apply token_init_variadic).
  assert (Hs : Token.value single = seq).
  { destruct Hseq as [-> | ->]; reflexivity. }
  assert (Hi : iter (Token.value single) = Ok xs).
  { rewrite Hs. destruct Hseq as [-> | ->]; reflexivity. }
  assert (Hl : len (Token.value single) = len (Token.value variadic)).
  { rewrite Hs, Hv. destruct Hseq as [-> | ->]; reflexivity. }
  repeat split.
  - exact Hi.
  - by rewrite Hv.
  - exact Hl.
  - intros c. by apply token_unicode_ext.
  - intros columns c. apply token_update_context_ext; try reflexivity.
    change (iter (Token.value single) = iter (Token.value variadic)).
    by rewrite Hi, Hv.
Qed.

Lemma token_call_shapes_pair :
  let xs := [PyInt 7; PyStr "us-east"] in
  let single := Token.__init__ [PyList xs] in
  let variadic := Token.__init__ xs in
  iter (Token.value single) = Ok xs ∧
  iter (Token.value variadic) = Ok xs ∧
  Token.get_context_size single = Token.get_context_size variadic ∧
  (∀ c, Token.__unicode__ (Token.set_context_id single c) =
        Token.__unicode__ (Token.set_context_id variadic c)) ∧
  (∀ columns c,
     Token.update_context
       (Token.set_context_id (Token.set_columns single columns) c) =
     Token.update_context
       (Token.set_context_id (Token.set_columns variadic columns) c)).
Proof.
  apply (token_call_shapes [PyInt 7; PyStr "us-east"]
           (PyList [PyInt 7; PyStr "us-east"])).
  - intros v H. discriminate H.
  - left. reflexivity.
Defined.

(** The same for a sequence of lists, as long as there are several. *)
Lemma token_call_shapes_lists :
  iter (Token.value (Token.__init__ [PyList [PyList [PyInt 1]; PyList [PyInt 2]]])) =
  iter (Token.value (Token.__init__ [PyList [PyInt 1]; PyList [PyInt 2]])).
Proof. reflexivity. Qed.

(** One component that is itself a list is taken for the sequence. *)
Lemma token_call_shapes_nested :
  let xs := [PyList [PyInt 1; PyInt 2]] in
  iter (Token.value (Token.__init__ [PyList xs])) = Ok xs ∧
  iter (Token.value (Token.__init__ xs)) = Ok [PyInt 1; PyInt 2].
Proof. by split. Qed.

(** ** Context ids *)

(** The base class puts the id assigned last into its text and uses it as
    the key. *)
Lemma query_value_uses_last_id (self : QueryValue.t) (c1 c2 : Z) (ctx : context) :
  let self' := QueryValue.set_context_id (QueryValue.set_context_id self c1) c2 in
  QueryValue.__unicode__ QueryValue.format_string self' = ":" +:+ str_int c2 ∧
  QueryValue.update_context self' ctx =
    (Ok tt, <[str_int c2 := QueryValue.value self]> ctx).
Proof.
  split; [|reflexivity].
  unfold QueryValue.__unicode__, QueryValue.format_string. simpl.
  apply format_placeholder.
Qed.

(** ** Time-range bounds *)

(** The two classes bind in the same way. *)
Lemma min_max_update_context (self : QueryValue.t) :
  MinTimeUUID.update_context self = MaxTimeUUID.update_context self.
Proof. reflexivity. Qed.

(** What [update_context] does with a [datetime], outcome and context. *)
Lemma time_bound_update_context (self : QueryValue.t) (v : datetime) (ctx : context) :
  QueryValue.value self = PyDatetime v →
  MinTimeUUID.update_context self ctx =
    match Spec.scale_then_truncate v with
    | Ok ms => (Ok tt, <[str (QueryValue.context_id self) := PyLong ms]> ctx)
    | Raise e => (Raise e, ctx)
    end.
Proof.
  intros Hv. unfold MinTimeUUID.update_context. rewrite Hv.
  rewrite total_seconds_sub_epoch.
  unfold Spec.scale_then_truncate, Spec.offset_seconds, Datetime.make. simpl.
  unfold bind, lift, setitem.
  destruct (dt_tzinfo v) as [tz|]; simpl.
  - destruct (utcoffset tz _) as [td|]; simpl; [|reflexivity].
    destruct (PyFloat.long _); reflexivity.
  - destruct (PyFloat.long _); reflexivity.
Qed.

(** A failure of the arithmetic leaves the context as it was. *)
Lemma time_bound_raises (self : QueryValue.t) (v : datetime) (e : exception)
    (ctx : context) :
  QueryValue.value self = PyDatetime v →
  Spec.scale_then_truncate v = Raise e →
  MinTimeUUID.update_context self ctx = (Raise e, ctx).
Proof.
  intros Hv He. by rewrite (time_bound_update_context self v ctx Hv), He.
Qed.

(** C1, as the component design words it, at 1970-01-01T00:00:01.5 with
    context id 0: the design's integer is 1000, the context receives 1500. *)
Lemma truncate_then_scale_fails :
  let t := naive 1970 1 1 0 0 1 500000 in
  let self := QueryValue.new (PyDatetime t) (Some 0) in
  Spec.truncate_then_scale t = Ok 1000 ∧
  MinTimeUUID.update_context self ∅ = (Ok tt, {["0" := PyLong 1500]}) ∧
  MaxTimeUUID.update_context self ∅ = (Ok tt, {["0" := PyLong 1500]}) ∧
  ¬ (∃ ms ctx',
       Spec.truncate_then_scale t = Ok ms ∧
       MinTimeUUID.update_context self ∅ = (Ok tt, ctx') ∧
       ctx' !! str_int 0 = Some (PyLong ms)).
Proof.
  assert (H1 : Spec.truncate_then_scale (naive 1970 1 1 0 0 1 500000) = Ok 1000)
    by (vm_compute; reflexivity).
  assert (H2 : MinTimeUUID.update_context
                 (QueryValue.new (PyDatetime (naive 1970 1 1 0 0 1 500000)) (Some 0)) ∅ =
               (Ok tt, {["0" := PyLong 1500]}))
    by (vm_compute; reflexivity).
  cbv zeta. repeat split; try assumption.
  intros (ms & ctx' & Hms & Hctx & Hk).
  rewrite H1 in Hms. injection Hms as <-.
  rewrite H2 in Hctx. injection Hctx as <-.
  vm_compute in Hk. discriminate.
Qed.

(** C1, amended. For a time-range bound, [MinTimeUUID] or [MaxTimeUUID],
    over a valid timestamp [v] and with context id [c], [update_context]
    returns and stores at [ctx[str(c)]] the integer
    [long(((v - epoch).total_seconds() - offset) * 1000)]: the seconds are
    multiplied by 1000 first and the product is truncated toward zero. The
    epoch is 1970-01-01 with the [tzinfo] of [v], [offset] is its UTC offset
    in seconds, 0 if [v] is naive, and the arithmetic is that of doubles. *)
Theorem time_bound_binds_milliseconds (self : QueryValue.t) (v : datetime)
    (c : Z) (ctx : context) :
  QueryValue.value self = PyDatetime v →
  QueryValue.context_id self = Some c →
  Datetime.valid (wall v) = true →
  Spec.offset_defined v = true →
  ∃ ms,
    Spec.scale_then_truncate v = Ok ms ∧
    MinTimeUUID.update_context self ctx = (Ok tt, <[str_int c := PyLong ms]> ctx) ∧
    MaxTimeUUID.update_context self ctx = (Ok tt, <[str_int c := PyLong ms]> ctx) ∧
    (MinTimeUUID.update_context self ctx).2 !! str_int c = Some (PyLong ms).
Proof.
  intros Hv Hc Hvalid Hoff.
  destruct (scale_then_truncate_returns v Hvalid Hoff) as [ms Hms].
  exists ms. split; [exact Hms|].
  assert (H : MinTimeUUID.update_context self ctx =
              (Ok tt, <[str_int c := PyLong ms]> ctx)).
  { rewrite (time_bound_update_context self v ctx Hv), Hms, Hc. reflexivity. }
  split; [exact H|]. split; [exact H|].
  rewrite H. simpl. apply lookup_insert_eq.
Qed.

(** The example of the documentation: 1970-01-01T00:00:01Z, context id 0. *)
Lemma time_bound_binds_milliseconds_example :
  let v := aware 1970 1 1 0 0 1 0 (fixed_offset 0) in
  let self := QueryValue.new (PyDatetime v) (Some 0) in
  ∃ ms,
    Spec.scale_then_truncate v = Ok ms ∧
    MinTimeUUID.update_context self ∅ = (Ok tt, <[str_int 0 := PyLong ms]> ∅) ∧
    MaxTimeUUID.update_context self ∅ = (Ok tt, <[str_int 0 := PyLong ms]> ∅) ∧
    (MinTimeUUID.update_context self ∅).2 !! str_int 0 = Some (PyLong ms).
Proof.
  apply (time_bound_binds_milliseconds
           (QueryValue.new
              (PyDatetime (aware 1970 1 1 0 0 1 0 (fixed_offset 0))) (Some 0))
           (aware 1970 1 1 0 0 1 0 (fixed_offset 0)) 0 ∅).
  - reflexivity.
  - reflexivity.
  - reflexivity.
  - reflexivity.
Defined.

Lemma time_bound_example :
  let self :=
    QueryValue.new (PyDatetime (aware 1970 1 1 0 0 1 0 (fixed_offset 0)))
                   (Some 0) in
  MinTimeUUID.__unicode__ self = "MinTimeUUID(:0)" ∧
  MinTimeUUID.update_context self ∅ = (Ok tt, {["0" := PyLong 1000]}).
Proof. split; vm_compute; reflexivity. Qed.

(** Without timezone, the offset is the integer 0 and drops out. *)
Lemma scale_then_truncate_naive (t : datetime) :
  dt_tzinfo t = None →
  Spec.scale_then_truncate t = Spec.truncated_milliseconds t.
Proof.
  intros Htz. unfold Spec.scale_then_truncate, Spec.offset_seconds.
  rewrite Htz. simpl. by rewrite sub_zero.
Qed.

(** C4, as the testable properties word it, at 1970-01-01T00:00:00.000600
    with context id 0: [round(0.6)] is 1, the context receives 0. *)
Lemma rounded_milliseconds_fails :
  let t := naive 1970 1 1 0 0 0 600 in
  let self := QueryValue.new (PyDatetime t) (Some 0) in
  Spec.rounded_milliseconds t = Ok 1 ∧
  MinTimeUUID.update_context self ∅ = (Ok tt, {["0" := PyLong 0]}) ∧
  MaxTimeUUID.update_context self ∅ = (Ok tt, {["0" := PyLong 0]}) ∧
  ¬ (∃ ms ctx',
       Spec.rounded_milliseconds t = Ok ms ∧
       MinTimeUUID.update_context self ∅ = (Ok tt, ctx') ∧
       ctx' !! str_int 0 = Some (PyLong ms)).
Proof.
  assert (H1 : Spec.rounded_milliseconds (naive 1970 1 1 0 0 0 600) = Ok 1)
    by (vm_compute; reflexivity).
  assert (H2 : MinTimeUUID.update_context
                 (QueryValue.new (PyDatetime (naive 1970 1 1 0 0 0 600)) (Some 0)) ∅ =
               (Ok tt, {["0" := PyLong 0]}))
    by (vm_compute; reflexivity).
  cbv zeta. repeat split; try assumption.
  intros (ms & ctx' & Hms & Hctx & Hk).
  rewrite H1 in Hms. injection Hms as <-.
  rewrite H2 in Hctx. injection Hctx as <-.
  vm_compute in Hk. discriminate.
Qed.

(** C4, amended. For a valid timestamp [t] without timezone offset,
    [MinTimeUUID] and [MaxTimeUUID] bind the same integer,
    [t.secondsSinceEpoch() * 1000] truncated toward zero (not rounded), in
    the arithmetic of doubles; the two differ in their text only,
    [MinTimeUUID(:c)] for the lower bound and [MaxTimeUUID(:c)] for the
    upper bound. *)
Theorem naive_bounds_bind_alike (self : QueryValue.t) (t : datetime)
    (c : Z) (ctx : context) :
  QueryValue.value self = PyDatetime t →
  QueryValue.context_id self = Some c →
  Datetime.valid (wall t) = true →
  dt_tzinfo t = None →
  ∃ ms,
    Spec.truncated_milliseconds t = Ok ms ∧
    MinTimeUUID.update_context self ctx = (Ok tt, <[str_int c := PyLong ms]> ctx) ∧
    MaxTimeUUID.update_context self ctx = (Ok tt, <[str_int c := PyLong ms]> ctx) ∧
    MinTimeUUID.__unicode__ self = "MinTimeUUID(:" +:+ str_int c +:+ ")" ∧
    MaxTimeUUID.__unicode__ self = "MaxTimeUUID(:" +:+ str_int c +:+ ")".
Proof.
  intros Hv Hc Hvalid Htz.
  assert (Hoff : Spec.offset_defined t = true)
    by (unfold Spec.offset_defined; by rewrite Htz).
  destruct (scale_then_truncate_returns t Hvalid Hoff) as [ms Hms].
  exists ms. split; [by rewrite <- scale_then_truncate_naive|].
  assert (H : MinTimeUUID.update_context self ctx =
              (Ok tt, <[str_int c := PyLong ms]> ctx)).
  { rewrite (time_bound_update_context self t ctx Hv), Hms, Hc. reflexivity. }
  split; [exact H|]. split; [exact H|]. split.
  - unfold MinTimeUUID.__unicode__, QueryValue.__unicode__. rewrite Hc.
    apply format_min.
  - unfold MaxTimeUUID.__unicode__, QueryValue.__unicode__. rewrite Hc.
    apply format_max.
Qed.

Lemma naive_bounds_bind_alike_example :
  let t := naive 2013 5 1 12 0 0 600 in
  let self := QueryValue.new (PyDatetime t) (Some 4) in
  ∃ ms,
    Spec.truncated_milliseconds t = Ok ms ∧
    MinTimeUUID.update_context self ∅ = (Ok tt, <[str_int 4 := PyLong ms]> ∅) ∧
    MaxTimeUUID.update_context self ∅ = (Ok tt, <[str_int 4 := PyLong ms]> ∅) ∧
    MinTimeUUID.__unicode__ self = "MinTimeUUID(:" +:+ str_int 4 +:+ ")" ∧
    MaxTimeUUID.__unicode__ self = "MaxTimeUUID(:" +:+ str_int 4 +:+ ")".
Proof.
  apply (naive_bounds_bind_alike
           (QueryValue.new (PyDatetime (naive 2013 5 1 12 0 0 600)) (Some 4))
           (naive 2013 5 1 12 0 0 600) 4 ∅).
  - reflexivity.
  - reflexivity.
  - reflexivity.
  - reflexivity.
Defined.

Lemma naive_bounds_example :
  Spec.truncated_milliseconds (naive 2013 5 1 12 0 0 600) = Ok 1367409600000.
Proof. vm_compute. reflexivity. Qed.

(** C3, evaluated. 1970-01-01T00:00:01.001 without timezone and
    1970-01-01T01:00:01.001+01:00 are the same instant, 1001 milliseconds
    after the epoch. The naive one binds 1000: [1.001 * 1000] is
    [1000.9999999999999] in doubles and [long] truncates. The aware one
    binds 1001: [3601.001 - 3600.0] is [1.0010000000002037]. *)
Theorem same_instant_binds_differently :
  let t1 := naive 1970 1 1 0 0 1 1000 in
  let t2 := aware 1970 1 1 1 0 1 1000 (fixed_offset 60) in
  Spec.same_instant t1 t2 ∧
  Spec.utc_microseconds t1 = Some 1001000 ∧
  MinTimeUUID.update_context (QueryValue.new (PyDatetime t1) (Some 0)) ∅ =
    (Ok tt, {["0" := PyLong 1000]}) ∧
  MinTimeUUID.update_context (QueryValue.new (PyDatetime t2) (Some 0)) ∅ =
    (Ok tt, {["0" := PyLong 1001]}) ∧
  MaxTimeUUID.update_context (QueryValue.new (PyDatetime t1) (Some 0)) ∅ =
    (Ok tt, {["0" := PyLong 1000]}) ∧
  MaxTimeUUID.update_context (QueryValue.new (PyDatetime t2) (Some 0)) ∅ =
    (Ok tt, {["0" := PyLong 1001]}).
Proof.
  cbv zeta. split; [split; [by eexists|]|]; repeat split; vm_compute; reflexivity.
Qed.

(** The same away from the epoch: 2004-01-10T13:00:00.001 without timezone
    and 2004-01-10T14:00:00.001+01:00. *)
Lemma same_instant_binds_differently_2004 :
  let t1 := naive 2004 1 10 13 0 0 1000 in
  let t2 := aware 2004 1 10 14 0 0 1000 (fixed_offset 60) in
  Spec.same_instant t1 t2 ∧
  Spec.scale_then_truncate t1 = Ok 1073739600001 ∧
  Spec.scale_then_truncate t2 = Ok 1073739600000.
Proof.
  cbv zeta. split; [split; [by eexists|]|]; repeat split; vm_compute; reflexivity.
Qed.

(** With a time zone whose offset changes over the year the difference is
    the change of offset since the epoch, an hour here: the offset taken off
    is the one in force on 1970-01-01, not the one of the value. *)
Lemma same_instant_binds_differently_dst :
  let t1 := aware 2013 7 1 12 0 0 0 summer_time in
  let t2 := naive 2013 7 1 11 0 0 0 in
  Spec.same_instant t1 t2 ∧
  Spec.scale_then_truncate t1 = Ok 1372680000000 ∧
  Spec.scale_then_truncate t2 = Ok 1372676400000.
Proof.
  cbv zeta. split; [split; [by eexists|]|]; repeat split; vm_compute; reflexivity.
Qed.

(** ** Tokens *)

Lemma enumerate_from_cons {A} (s : Z) (x : A) (l : list A) :
  enumerate_from s (x :: l) = (s, x) :: enumerate_from (s + 1) l.
Proof.
  unfold enumerate_from. rewrite seqZ_cons by (simpl; lia).
  replace (Z.pred (Z.of_nat (length (x :: l)))) with (Z.of_nat (length l))
    by (simpl; lia).
  by replace (Z.succ s) with (s + 1) by lia.
Qed.

Lemma token_update_context_unfold (self : Token.t) (ctx : context) :
  Token.update_context self ctx =
    match Token._columns self with
    | None => (Raise TypeError, ctx)
    | Some columns =>
        match iter (Token.value self) with
        | Raise e => (Raise e, ctx)
        | Ok values =>
            for_ (enumerate_from 0 (zip columns values))
                 (bind_pair (Token.context_id self)) ctx
        end
    end.
Proof.
  unfold Token.update_context, bind, lift. simpl.
  destruct (Token._columns self) as [columns|]; simpl; [|reflexivity].
  destruct (iter (Token.value self)) as [values|e]; reflexivity.
Qed.

(** The loop writes at the keys of its indices only, however it ends. *)
Lemma loop_frame (pairs : list (Column * pyval)) (s : Z) (cid : option Z)
    (ctx : context) (k : string) :
  (∀ c j, cid = Some c → s ≤ j < s + Z.of_nat (length pairs) →
          k ≠ str_int (c + j)) →
  (for_ (enumerate_from s pairs) (bind_pair cid) ctx).2 !! k = ctx !! k.
Proof.
  revert s ctx. induction pairs as [|[col val] pairs IH]; intros s ctx Hk.
  - reflexivity.
  - rewrite enumerate_from_cons. simpl.
    unfold bind at 1. unfold bind_pair at 1. unfold bind, lift, setitem.
    destruct (to_database col val) as [v|e]; [|reflexivity].
    destruct cid as [c|]; simpl; [|reflexivity].
    rewrite IH.
    + apply lookup_insert_ne. intros Heq. apply (Hk c s eq_refl); [|done].
      simpl. lia.
    + intros c' j [= <-] Hj. apply Hk; [done|]. simpl. lia.
Qed.

(** The loop never removes a key. *)
Lemma loop_keeps (pairs : list (Column * pyval)) (s : Z) (cid : option Z)
    (ctx : context) (k : string) :
  is_Some (ctx !! k) →
  is_Some ((for_ (enumerate_from s pairs) (bind_pair cid) ctx).2 !! k).
Proof.
  revert s ctx. induction pairs as [|[col val] pairs IH]; intros s ctx Hk.
  - exact Hk.
  - rewrite enumerate_from_cons. simpl.
    unfold bind at 1. unfold bind_pair at 1. unfold bind, lift, setitem.
    destruct (to_database col val) as [v|e]; [|exact Hk].
    destruct cid as [c|]; simpl; [|exact Hk].
    apply IH. rewrite lookup_insert. case_decide; [by eexists|exact Hk].
Qed.

(** When every [to_database] returns, the loop ends normally and each
    index has its value. *)
Lemma loop_ok (pairs : list (Column * pyval)) (s c : Z) (ctx : context) :
  (∀ col val, (col, val) ∈ pairs → is_raise (to_database col val) = false) →
  ∃ ctx',
    for_ (enumerate_from s pairs) (bind_pair (Some c)) ctx = (Ok tt, ctx') ∧
    ∀ (i : nat) col val,
      pairs !! i = Some (col, val) →
      ∃ out, to_database col val = Ok out ∧
             ctx' !! str_int (c + (s + Z.of_nat i)) = Some out.
Proof.
  revert s ctx. induction pairs as [|[col val] pairs IH]; intros s ctx Hok.
  - exists ctx. split; [reflexivity|]. intros i ?? Hi. by destruct i.
  - assert (Hhd : is_raise (to_database col val) = false)
      by (apply Hok; left).
    destruct (to_database col val) as [v|e] eqn:Hv; [|discriminate].
    destruct (IH (s + 1) (<[str_int (c + s) := v]> ctx)) as (ctx' & Hrun & Hget).
    { intros col' val' Hin. apply Hok. by right. }
    exists ctx'. split.
    + rewrite enumerate_from_cons. simpl.
      unfold bind at 1. unfold bind_pair at 1. unfold bind, lift, setitem.
      rewrite Hv. simpl. exact Hrun.
    + intros [|i] col' val' Hi.
      * injection Hi as <- <-. exists v. split; [exact Hv|].
        replace (c + (s + Z.of_nat 0)) with (c + s) by lia.
        pose proof (loop_frame pairs (s + 1) (Some c)
                      (<[str_int (c + s) := v]> ctx)
                      (str_int (c + s))) as Hfr.
        rewrite Hrun in Hfr. simpl in Hfr. rewrite Hfr.
        -- apply lookup_insert_eq.
        -- intros c' j [= <-] Hj Heq. apply str_int_inj in Heq. lia.
      * destruct (Hget i col' val' Hi) as (out & Hout & Hlook).
        exists out. split; [exact Hout|].
        by replace (c + (s + Z.of_nat (S i))) with (c + (s + 1 + Z.of_nat i))
          by lia.
Qed.

Lemma map_result_ok {A B} (f : A → result B) (g : A → B) (l : list A) :
  (∀ x, f x = Ok (g x)) → map_result f l = Ok (g <$> l).
Proof.
  intros Hf. induction l as [|x l IH]; [reflexivity|].
  simpl. rewrite Hf, IH. reflexivity.
Qed.

(** The text of a token over [n] components with context id [c]. *)
Lemma token_unicode (self : Token.t) (payload : list pyval) (c : Z) :
  iter (Token.value self) = Ok payload →
  Token.context_id self = Some c →
  Token.__unicode__ self =
    Ok ("token(" +:+
        join ", " (Spec.markers c (Z.of_nat (length payload))) +:+ ")").
Proof.
  intros Hi Hc. unfold Token.__unicode__, Token.get_context_size.
  rewrite (len_iter _ _ Hi), Hc. simpl.
  rewrite (map_result_ok _ (fun i => ":" +:+ str_int (c + i))).
  - reflexivity.
  - intros i. simpl. by rewrite append_empty.
Qed.

Lemma keys_spec (c n : Z) (k : string) :
  k ∈ Spec.keys c n ↔ ∃ i, 0 ≤ i < n ∧ k = str_int (c + i).
Proof.
  unfold Spec.keys. rewrite list_elem_of_fmap. split.
  - intros (i & -> & Hi). apply elem_of_seqZ in Hi. exists i. split; [lia|done].
  - intros (i & Hi & ->). exists i. split; [done|]. apply elem_of_seqZ. lia.
Qed.

Lemma keys_NoDup (c n : Z) : NoDup (Spec.keys c n).
Proof.
  unfold Spec.keys. apply NoDup_fmap_2; [|apply NoDup_seqZ].
  intros i j Hij. apply str_int_inj in Hij. lia.
Qed.

Lemma keys_length (c n : Z) : length (Spec.keys c n) = Z.to_nat n.
Proof. unfold Spec.keys. by rewrite length_fmap, length_seqZ. Qed.

Lemma markers_length (c n : Z) : length (Spec.markers c n) = Z.to_nat n.
Proof. unfold Spec.markers. by rewrite length_fmap, length_seqZ. Qed.

(** What [update_context] does for a token with columns, whatever their
    number: the components are paired with the columns up to the shorter of
    the two sequences. *)
Lemma token_update_context_zip (self : Token.t) (payload : list pyval)
    (columns : list Column) (c : Z) (ctx : context) :
  iter (Token.value self) = Ok payload →
  Token._columns self = Some columns →
  Token.context_id self = Some c →
  (∀ (i : nat) col val, columns !! i = Some col → payload !! i = Some val →
                        is_raise (to_database col val) = false) →
  ∃ ctx',
    Token.update_context self ctx = (Ok tt, ctx') ∧
    (∀ (i : nat) col val,
       columns !! i = Some col → payload !! i = Some val →
       ∃ out, to_database col val = Ok out ∧
              ctx' !! str_int (c + Z.of_nat i) = Some out) ∧
    (∀ k, k ∉ Spec.keys c (Z.of_nat (length columns `min` length payload)) →
          ctx' !! k = ctx !! k) ∧
    dom ctx' =
      dom ctx ∪
      list_to_set (Spec.keys c (Z.of_nat (length columns `min` length payload))).
Proof.
  intros Hi Hcols Hc Hok.
  rewrite token_update_context_unfold, Hcols, Hi, Hc.
  destruct (loop_ok (zip columns payload) 0 c ctx) as (ctx' & Hrun & Hget).
  { intros col val Hin. apply list_elem_of_lookup in Hin as [i Hin].
    apply lookup_zip_with_Some in Hin as (col' & val' & [= <- <-] & ? & ?).
    by apply (Hok i). }
  assert (Hbound : ∀ (i : nat) col val,
             columns !! i = Some col → payload !! i = Some val →
             ∃ out, to_database col val = Ok out ∧
                    ctx' !! str_int (c + Z.of_nat i) = Some out).
  { intros i col val Hcol Hval.
    apply (Hget i col val). apply lookup_zip_with_Some. by exists col, val. }
  assert (Hframe : ∀ k,
             k ∉ Spec.keys c (Z.of_nat (length columns `min` length payload)) →
             ctx' !! k = ctx !! k).
  { intros k Hk.
    pose proof (loop_frame (zip columns payload) 0 (Some c) ctx k) as Hfr.
    rewrite Hrun in Hfr. apply Hfr.
    intros c' j [= <-] Hj ->. apply Hk. apply keys_spec. exists j.
    rewrite length_zip_with in Hj. split; [lia|done]. }
  exists ctx'. split; [exact Hrun|]. split; [exact Hbound|].
  split; [exact Hframe|].
  apply set_eq. intros k.
  rewrite elem_of_union, !elem_of_dom, elem_of_list_to_set.
  destruct (decide (k ∈ Spec.keys c
                      (Z.of_nat (length columns `min` length payload))))
    as [Hin|Hout].
  - split; [by right|]. intros _.
    apply keys_spec in Hin as (j & Hj & ->).
    assert (Hlt : (Z.to_nat j < length columns ∧ Z.to_nat j < length payload)%nat)
      by lia.
    destruct Hlt as [Hlc Hlp].
    apply lookup_lt_is_Some in Hlc as [col Hcol].
    apply lookup_lt_is_Some in Hlp as [val Hval].
    destruct (Hbound _ _ _ Hcol Hval) as (out & _ & Hlook).
    replace (Z.of_nat (Z.to_nat j)) with j in Hlook by lia. by eexists.
  - rewrite (Hframe k Hout). tauto.
Qed.

(** A token as the statement builder prepares it: built from its
    arguments, then given columns and a context id, in either order. *)
Lemma token_built (args : list pyval) (columns : list Column) (c : Z) :
  let self :=
    Token.set_context_id (Token.set_columns (Token.__init__ args) columns) c in
  let self' :=
    Token.set_columns (Token.set_context_id (Token.__init__ args) c) columns in
  self = self' ∧
  iter (Token.value self) = Ok (Spec.normalized args) ∧
  Token._columns self = Some columns ∧
  Token.context_id self = Some c.
Proof.
  repeat split. apply (token_init_iter args).
Qed.

(** C5. A token over [n] components, bound to [n] columns and with context
    id [c]: its text is [token(] followed by the [n] markers [:c], [:c+1],
    ..., [:c+n-1] joined by commas and [)]; [update_context] writes [n]
    entries, at the keys [str(c)], ..., [str(c+n-1)], entry [i] being
    [columns[i].to_database(payload[i])], and nothing else. The calls of
    [to_database] are taken to return. *)
Theorem token_binds_each_component (self : Token.t) (payload : list pyval)
    (columns : list Column) (c : Z) (ctx : context) :
  iter (Token.value self) = Ok payload →
  Token._columns self = Some columns →
  Token.context_id self = Some c →
  length columns = length payload →
  (∀ (i : nat) col val, columns !! i = Some col → payload !! i = Some val →
                        is_raise (to_database col val) = false) →
  let n := Z.of_nat (length payload) in
  Token.get_context_size self = Ok n ∧
  Token.__unicode__ self =
    Ok ("token(" +:+ join ", " (Spec.markers c n) +:+ ")") ∧
  length (Spec.markers c n) = length payload ∧
  ∃ ctx',
    Token.update_context self ctx = (Ok tt, ctx') ∧
    (∀ (i : nat) col val,
       columns !! i = Some col → payload !! i = Some val →
       ∃ out, to_database col val = Ok out ∧
              ctx' !! str_int (c + Z.of_nat i) = Some out) ∧
    (∀ k, k ∉ Spec.keys c n → ctx' !! k = ctx !! k) ∧
    dom ctx' = dom ctx ∪ list_to_set (Spec.keys c n) ∧
    NoDup (Spec.keys c n) ∧
    length (Spec.keys c n) = length payload.
Proof.
  intros Hi Hcols Hc Hlen Hok n.
  split; [by apply len_iter|].
  split; [by apply token_unicode|].
  split; [unfold n; rewrite markers_length; lia|].
  destruct (token_update_context_zip self payload columns c ctx Hi Hcols Hc Hok)
    as (ctx' & Hrun & Hbound & Hframe & Hdom).
  replace (Z.of_nat (length columns `min` length payload)) with n
    in Hframe, Hdom by (unfold n; lia).
  exists ctx'. repeat split; try assumption.
  - apply keys_NoDup.
  - unfold n. rewrite keys_length. lia.
Qed.

(** The example of the documentation: the values 7 and [us-east], two
    columns, context id 2. *)
Lemma token_binds_each_component_example :
  let self :=
    Token.set_context_id
      (Token.set_columns (Token.__init__ [PyInt 7; PyStr "us-east"])
                         [plain_column; plain_column]) 2 in
  Token.get_context_size self = Ok 2 ∧
  Token.__unicode__ self =
    Ok ("token(" +:+ join ", " (Spec.markers 2 2) +:+ ")") ∧
  length (Spec.markers 2 2) = 2%nat ∧
  ∃ ctx',
    Token.update_context self ∅ = (Ok tt, ctx') ∧
    (∀ (i : nat) col val,
       [plain_column; plain_column] !! i = Some col →
       [PyInt 7; PyStr "us-east"] !! i = Some val →
       ∃ out, to_database col val = Ok out ∧
              ctx' !! str_int (2 + Z.of_nat i) = Some out) ∧
    (∀ k, k ∉ Spec.keys 2 2 → ctx' !! k = (∅ : context) !! k) ∧
    dom ctx' = dom (∅ : context) ∪ list_to_set (Spec.keys 2 2) ∧
    NoDup (Spec.keys 2 2) ∧
    length (Spec.keys 2 2) = 2%nat.
Proof.
  apply (token_binds_each_component
           (Token.set_context_id
              (Token.set_columns (Token.__init__ [PyInt 7; PyStr "us-east"])
                                 [plain_column; plain_column]) 2)
           [PyInt 7; PyStr "us-east"] [plain_column; plain_column] 2 ∅).
  - reflexivity.
  - reflexivity.
  - reflexivity.
  - reflexivity.
  - intros i col val Hcol _.
    destruct i as [|[|i]]; simpl in Hcol; try discriminate;
      injection Hcol as <-; reflexivity.
Defined.

Lemma token_example_text :
  Token.__unicode__
    (Token.set_context_id
       (Token.set_columns (Token.__init__ [PyInt 7; PyStr "us-east"])
                          [plain_column; plain_column]) 2) =
  Ok "token(:2, :3)".
Proof. vm_compute. reflexivity. Qed.

(** C2, as the error handling design words it, for the token over 1 and 2
    with one column and context id 0: the call returns normally and the
    context has a new entry. *)
Lemma token_mismatch_accepted :
  let columns := [plain_column] in
  let self :=
    Token.set_context_id
      (Token.set_columns (Token.__init__ [PyInt 1; PyInt 2]) columns) 0 in
  iter (Token.value self) = Ok [PyInt 1; PyInt 2] ∧
  length columns ≠ length [PyInt 1; PyInt 2] ∧
  Token.update_context self ∅ = (Ok tt, {["0" := PyInt 1]}) ∧
  ¬ Spec.rejects (Token.update_context self) ∅.
Proof.
  cbv zeta. split; [reflexivity|]. split; [simpl; lia|].
  assert (H : Token.update_context
                (Token.set_context_id
                   (Token.set_columns (Token.__init__ [PyInt 1; PyInt 2])
                                      [plain_column]) 0) ∅ =
              (Ok tt, {["0" := PyInt 1]}))
    by (vm_compute; reflexivity).
  split; [exact H|]. intros [e He]. rewrite H in He. discriminate.
Qed.

(** C2, amended. A token whose columns were never supplied: [update_context]
    raises ([TypeError], from [zip]) and leaves the context as it was. A
    token whose columns were supplied, in whatever number: [update_context]
    does not compare the number of columns with the length of the payload;
    it pairs columns and components up to the shorter of the two, and when
    the calls of [to_database] on those pairs return it returns normally,
    having written the entries of those pairs and nothing else. *)
Theorem token_columns_unchecked (self : Token.t) (ctx : context) :
  (Token._columns self = None →
   Token.update_context self ctx = (Raise TypeError, ctx)) ∧
  (∀ (columns : list Column) (payload : list pyval) (c : Z),
     Token._columns self = Some columns →
     iter (Token.value self) = Ok payload →
     Token.context_id self = Some c →
     (∀ (i : nat) col val, columns !! i = Some col → payload !! i = Some val →
                           is_raise (to_database col val) = false) →
     let m := Z.of_nat (length columns `min` length payload) in
     ∃ ctx',
       Token.update_context self ctx = (Ok tt, ctx') ∧
       (∀ (i : nat) col val,
          columns !! i = Some col → payload !! i = Some val →
          ∃ out, to_database col val = Ok out ∧
                 ctx' !! str_int (c + Z.of_nat i) = Some out) ∧
       (∀ k, k ∉ Spec.keys c m → ctx' !! k = ctx !! k) ∧
       dom ctx' = dom ctx ∪ list_to_set (Spec.keys c m)).
Proof.
  split.
  - intros Hnone. by rewrite token_update_context_unfold, Hnone.
  - intros columns payload c Hcols Hi Hc Hok m.
    apply (token_update_context_zip self payload columns c ctx Hi Hcols Hc Hok).
Qed.

Lemma token_columns_unchecked_example :
  let unbound := Token.set_context_id (Token.__init__ [PyInt 1; PyInt 2]) 0 in
  let bound := Token.set_columns unbound [plain_column] in
  Token.update_context unbound ∅ = (Raise TypeError, ∅) ∧
  ∃ ctx',
    Token.update_context bound ∅ = (Ok tt, ctx') ∧
    (∀ (i : nat) col val,
       [plain_column] !! i = Some col → [PyInt 1; PyInt 2] !! i = Some val →
       ∃ out, to_database col val = Ok out ∧
              ctx' !! str_int (0 + Z.of_nat i) = Some out) ∧
    (∀ k, k ∉ Spec.keys 0 1 → ctx' !! k = (∅ : context) !! k) ∧
    dom ctx' = dom (∅ : context) ∪ list_to_set (Spec.keys 0 1).
Proof.
  split.
  - apply (proj1 (token_columns_unchecked
                    (Token.set_context_id (Token.__init__ [PyInt 1; PyInt 2]) 0)
                    ∅)).
    reflexivity.
  - apply (proj2 (token_columns_unchecked
                    (Token.set_columns
                       (Token.set_context_id
                          (Token.__init__ [PyInt 1; PyInt 2]) 0)
                       [plain_column])
                    ∅)
             [plain_column] [PyInt 1; PyInt 2] 0).
    + reflexivity.
    + reflexivity.
    + reflexivity.
    + intros i col val Hcol _.
      destruct i as [|i]; simpl in Hcol; try discriminate.
      injection Hcol as <-. reflexivity.
Defined.

(** A [to_database] that raises ends the loop with the entries written so
    far in place. *)
Lemma token_partial_update :
  let failing := new_Column (fun _ => Raise (ValidationError "bad value")) in
  let self :=
    Token.set_context_id
      (Token.set_columns (Token.__init__ [PyInt 1; PyInt 2])
                         [plain_column; failing]) 0 in
  Token.update_context self ∅ =
    (Raise (ValidationError "bad value"), {["0" := PyInt 1]}).
Proof. vm_compute. reflexivity. Qed.

(** ** The frame of [update_context] *)

(** C8. For a value of any of the four classes with context id [c] and
    context size [n], [update_context] touches the context at the keys
    [str(i)] for [c <= i < c + n] only: every other key reads after the call
    as it did before, whether the call returns or raises, and no key is
    removed. The call has no other effect: the value itself and everything
    else are arguments that are not returned. *)
Theorem update_context_frame (b : bindable) (c n : Z) (ctx : context) :
  context_id b = Some c →
  get_context_size b = Ok n →
  (∀ k, (∀ i, c ≤ i < c + n → k ≠ str_int i) →
        (update_context b ctx).2 !! k = ctx !! k) ∧
  (∀ k, is_Some (ctx !! k) → is_Some ((update_context b ctx).2 !! k)).
Proof.
  intros Hc Hn.
  assert (Htime : ∀ self : QueryValue.t,
            QueryValue.context_id self = Some c → n = 1 →
            (∀ k, (∀ i, c ≤ i < c + n → k ≠ str_int i) →
                  (MinTimeUUID.update_context self ctx).2 !! k = ctx !! k) ∧
            (∀ k, is_Some (ctx !! k) →
                  is_Some ((MinTimeUUID.update_context self ctx).2 !! k))).
  { intros self Hcs ->.
    destruct (QueryValue.value self) as [| | | | | | | |v|] eqn:Hv;
      try (unfold MinTimeUUID.update_context; rewrite Hv; by split).
    rewrite (time_bound_update_context self v ctx Hv), Hcs.
    destruct (Spec.scale_then_truncate v) as [ms|e]; [|by split].
    simpl. split.
    - intros k Hk. apply lookup_insert_ne. intros <-. apply (Hk c); [lia|done].
    - intros k Hk. rewrite lookup_insert. case_decide; [by eexists|done]. }
  destruct b as [self|self|self|self]; simpl in Hc, Hn.
  - injection Hn as <-.
    unfold update_context, QueryValue.update_context, setitem,
      QueryValue.get_context_size.
    rewrite Hc. simpl. split.
    + intros k Hk. apply lookup_insert_ne. intros <-. apply (Hk c); [lia|done].
    + intros k Hk. rewrite lookup_insert. case_decide; [by eexists|done].
  - injection Hn as <-. by apply Htime.
  - injection Hn as <-. by apply Htime.
  - unfold update_context. rewrite token_update_context_unfold.
    destruct (Token._columns self) as [columns|]; [|by split].
    apply iter_len in Hn as (items & Hi & ->). rewrite Hi, Hc. split.
    + intros k Hk. apply loop_frame.
      intros c' j [= <-] Hj. apply Hk. rewrite length_zip_with in Hj. lia.
    + intros k Hk. by apply loop_keeps.
Qed.

Lemma update_context_frame_example :
  let b := AToken (Token.set_context_id
                     (Token.set_columns (Token.__init__ [PyInt 7; PyStr "us-east"])
                                        [plain_column; plain_column]) 2) in
  let ctx : context := {["1" := PyInt 0]} in
  (∀ k, (∀ i, 2 ≤ i < 2 + 2 → k ≠ str_int i) →
        (update_context b ctx).2 !! k = ctx !! k) ∧
  (∀ k, is_Some (ctx !! k) → is_Some ((update_context b ctx).2 !! k)).
Proof.
  apply (update_context_frame
           (AToken (Token.set_context_id
                      (Token.set_columns
                         (Token.__init__ [PyInt 7; PyStr "us-east"])
                         [plain_column; plain_column]) 2))
           2 2 {["1" := PyInt 0]}).
  - reflexivity.
  - reflexivity.
Defined.

(** * Further properties *)

(** ** Values without a context id *)

(** Before [set_context_id] the id is [None], and nothing objects: the base
    class, over any value, and the two time-range bounds, over a valid
    timestamp that is naive or whose [tzinfo] answers [utcoffset] for the
    epoch with a [timedelta], render the placeholder [:None] and bind under
    the key [None]. *)
Theorem unassigned_context_id (value : pyval) (d : datetime) (ctx : context) :
  Datetime.valid (wall d) = true →
  Spec.offset_defined d = true →
  let self := QueryValue.__init__ value in
  let bound := QueryValue.__init__ (PyDatetime d) in
  QueryValue.__unicode__ QueryValue.format_string self = ":None" ∧
  QueryValue.update_context self ctx = (Ok tt, <["None" := value]> ctx) ∧
  MinTimeUUID.__init__ (PyDatetime d) = Ok bound ∧
  MaxTimeUUID.__init__ (PyDatetime d) = Ok bound ∧
  MinTimeUUID.__unicode__ bound = "MinTimeUUID(:None)" ∧
  MaxTimeUUID.__unicode__ bound = "MaxTimeUUID(:None)" ∧
  ∃ ms,
    MinTimeUUID.update_context bound ctx = (Ok tt, <["None" := PyLong ms]> ctx) ∧
    MaxTimeUUID.update_context bound ctx = (Ok tt, <["None" := PyLong ms]> ctx).
Proof.
  intros Hvalid Hoff self bound. repeat split.
  destruct (scale_then_truncate_returns d Hvalid Hoff) as [ms Hms].
  exists ms.
  assert (H : MinTimeUUID.update_context bound ctx =
              (Ok tt, <["None" := PyLong ms]> ctx)).
  { rewrite (time_bound_update_context bound d ctx eq_refl), Hms. reflexivity. }
  split; exact H.
Qed.

Lemma unassigned_context_id_example :
  let d := naive 2013 5 1 12 0 0 0 in
  let self := QueryValue.__init__ (PyInt 5) in
  let bound := QueryValue.__init__ (PyDatetime d) in
  QueryValue.__unicode__ QueryValue.format_string self = ":None" ∧
  QueryValue.update_context self ∅ = (Ok tt, <["None" := PyInt 5]> ∅) ∧
  MinTimeUUID.__init__ (PyDatetime d) = Ok bound ∧
  MaxTimeUUID.__init__ (PyDatetime d) = Ok bound ∧
  MinTimeUUID.__unicode__ bound = "MinTimeUUID(:None)" ∧
  MaxTimeUUID.__unicode__ bound = "MaxTimeUUID(:None)" ∧
  ∃ ms,
    MinTimeUUID.update_context bound ∅ = (Ok tt, <["None" := PyLong ms]> ∅) ∧
    MaxTimeUUID.update_context bound ∅ = (Ok tt, <["None" := PyLong ms]> ∅).
Proof.
  apply (unassigned_context_id (PyInt 5) (naive 2013 5 1 12 0 0 0) ∅).
  - reflexivity.
  - reflexivity.
Defined.

(** The loop of a token without context id writes nothing. *)
Lemma loop_without_id (pairs : list (Column * pyval)) (s : Z) (ctx : context) :
  (for_ (enumerate_from s pairs) (bind_pair None) ctx).2 = ctx ∧
  (pairs ≠ [] →
   is_raise (for_ (enumerate_from s pairs) (bind_pair None) ctx).1 = true).
Proof.
  destruct pairs as [|[col val] pairs]; [by split|].
  rewrite enumerate_from_cons. simpl.
  unfold bind at 1. unfold bind_pair at 1. unfold bind, lift.
  destruct (to_database col val); by split.
Qed.

(** A token without context id: with components, its text is a
    [TypeError] ([None + i]); [update_context] never writes, and raises as
    soon as there is a column to pair with a component. *)
Theorem token_without_context_id (self : Token.t) (payload : list pyval)
    (ctx : context) :
  Token.context_id self = None →
  iter (Token.value self) = Ok payload →
  (payload ≠ [] → Token.__unicode__ self = Raise TypeError) ∧
  (Token.update_context self ctx).2 = ctx ∧
  (∀ columns, Token._columns self = Some columns →
     columns ≠ [] → payload ≠ [] →
     is_raise (Token.update_context self ctx).1 = true).
Proof.
  intros Hc Hi. split; [|split].
  - intros Hne. unfold Token.__unicode__, Token.get_context_size.
    rewrite (len_iter _ _ Hi), Hc.
    destruct payload as [|x payload]; [done|].
    cbv beta iota delta [result_bind]. unfold range.
    rewrite seqZ_cons by (simpl; lia). reflexivity.
  - rewrite token_update_context_unfold, Hi, Hc.
    destruct (Token._columns self) as [columns|]; [|reflexivity].
    apply loop_without_id.
  - intros columns Hcols Hne1 Hne2.
    rewrite token_update_context_unfold, Hi, Hc, Hcols.
    apply loop_without_id.
    destruct columns, payload; done.
Qed.

Lemma token_without_context_id_example :
  let self :=
    Token.set_columns (Token.__init__ [PyInt 7; PyStr "us-east"])
                      [plain_column; plain_column] in
  ([PyInt 7; PyStr "us-east"] ≠ [] → Token.__unicode__ self = Raise TypeError) ∧
  (Token.update_context self ∅).2 = ∅ ∧
  (∀ columns, Token._columns self = Some columns →
     columns ≠ [] → [PyInt 7; PyStr "us-east"] ≠ [] →
     is_raise (Token.update_context self ∅).1 = true).
Proof.
  apply (token_without_context_id
           (Token.set_columns (Token.__init__ [PyInt 7; PyStr "us-east"])
                              [plain_column; plain_column])
           [PyInt 7; PyStr "us-east"] ∅).
  - reflexivity.
  - reflexivity.
Defined.

(** ** Tokens at the edges *)

(** A token without components, with or without context id: its context
    size is 0, its text is [token()], and [update_context] returns without
    touching the context, whatever the columns. *)
Theorem token_empty (self : Token.t) (columns : list Column) (ctx : context) :
  iter (Token.value self) = Ok [] →
  Token.get_context_size self = Ok 0 ∧
  Token.__unicode__ self = Ok "token()" ∧
  Token.update_context (Token.set_columns self columns) ctx = (Ok tt, ctx).
Proof.
  intros Hi. split; [|split].
  - apply (len_iter _ _ Hi).
  - unfold Token.__unicode__, Token.get_context_size.
    rewrite (len_iter _ _ Hi). reflexivity.
  - rewrite token_update_context_unfold.
    change (Token.value (Token.set_columns self columns)) with (Token.value self).
    rewrite Hi. simpl.
    replace (zip columns ([] : list pyval)) with ([] : list (Column * pyval))
      by (by destruct columns).
    reflexivity.
Qed.

Lemma token_empty_example :
  Token.get_context_size (Token.__init__ []) = Ok 0 ∧
  Token.__unicode__ (Token.__init__ []) = Ok "token()" ∧
  Token.update_context (Token.set_columns (Token.__init__ []) [plain_column]) ∅ =
    (Ok tt, ∅).
Proof.
  apply (token_empty (Token.__init__ []) [plain_column] ∅). reflexivity.
Defined.

(** A token built from whatever arguments holds a list or a tuple: its
    context size is the number of its components and, once it has a context
    id, its text is there, with one marker for each component. *)
Theorem token_always_renders (args : list pyval) (c : Z) :
  let self := Token.set_context_id (Token.__init__ args) c in
  let n := Z.of_nat (length (Spec.normalized args)) in
  Token.get_context_size (Token.__init__ args) = Ok n ∧
  Token.get_context_size self = Ok n ∧
  Token.__unicode__ self =
    Ok ("token(" +:+ join ", " (Spec.markers c n) +:+ ")") ∧
  length (Spec.markers c n) = length (Spec.normalized args).
Proof.
  intros self n.
  pose proof (token_init_iter args) as Hi.
  split; [by apply len_iter|]. split; [by apply (len_iter _ _ Hi)|].
  split; [by apply (token_unicode self _ c Hi)|].
  unfold n. rewrite markers_length. lia.
Qed.

(** A [to_database] that raises at index [j], after the earlier ones
    returned: the loop stops there with that exception, the entries before
    [j] are in the context and nothing else has changed. *)
Lemma loop_fails (pairs : list (Column * pyval)) (j : nat) (col : Column)
    (val : pyval) (e : exception) (s c : Z) (ctx : context) :
  pairs !! j = Some (col, val) →
  to_database col val = Raise e →
  (∀ (i : nat) col' val', (i < j)%nat → pairs !! i = Some (col', val') →
                          is_raise (to_database col' val') = false) →
  ∃ ctx',
    for_ (enumerate_from s pairs) (bind_pair (Some c)) ctx = (Raise e, ctx') ∧
    (∀ (i : nat) col' val', (i < j)%nat → pairs !! i = Some (col', val') →
       ∃ out, to_database col' val' = Ok out ∧
              ctx' !! str_int (c + (s + Z.of_nat i)) = Some out) ∧
    (∀ k, (∀ i, s ≤ i < s + Z.of_nat j → k ≠ str_int (c + i)) →
          ctx' !! k = ctx !! k).
Proof.
  revert j s ctx. induction pairs as [|[col0 val0] pairs IH];
    intros j s ctx Hj He Hbefore; [by destruct j|].
  rewrite enumerate_from_cons. simpl.
  unfold bind at 1. unfold bind_pair at 1. unfold bind, lift, setitem.
  destruct j as [|j].
  - injection Hj as -> ->. rewrite He. exists ctx. split; [reflexivity|].
    split; [intros; lia|done].
  - assert (Hhd : is_raise (to_database col0 val0) = false)
      by (apply (Hbefore 0%nat); [lia|done]).
    destruct (to_database col0 val0) as [v|] eqn:Hv; [|discriminate]. simpl.
    destruct (IH j (s + 1) (<[str_int (c + s) := v]> ctx) Hj He)
      as (ctx' & Hrun & Hget & Hframe).
    { intros i col' val' Hi. apply (Hbefore (S i)). lia. }
    exists ctx'. split; [exact Hrun|]. split.
    + intros [|i] col' val' Hi Hlook.
      * injection Hlook as <- <-. exists v. split; [exact Hv|].
        replace (c + (s + Z.of_nat 0)) with (c + s) by lia.
        rewrite Hframe; [apply lookup_insert_eq|].
        intros i' Hi' Heq. apply str_int_inj in Heq. lia.
      * destruct (Hget i col' val' ltac:(lia) Hlook) as (out & Hout & Hl).
        exists out. split; [exact Hout|].
        by replace (c + (s + Z.of_nat (S i))) with (c + (s + 1 + Z.of_nat i))
          by lia.
    + intros k Hk. rewrite Hframe.
      * apply lookup_insert_ne. intros Heq. apply (Hk s); [lia|done].
      * intros i Hi. apply Hk. lia.
Qed.

(** A token whose column at index [j] rejects its component, the earlier
    ones accepting theirs: [update_context] raises that exception with the
    context changed: the entries of the components before [j] are written,
    those from [j] on are not. *)
Theorem token_partial_binding (self : Token.t) (payload : list pyval)
    (columns : list Column) (c : Z) (ctx : context) (j : nat) (col : Column)
    (val : pyval) (e : exception) :
  iter (Token.value self) = Ok payload →
  Token._columns self = Some columns →
  Token.context_id self = Some c →
  columns !! j = Some col → payload !! j = Some val →
  to_database col val = Raise e →
  (∀ (i : nat) col' val', (i < j)%nat →
     columns !! i = Some col' → payload !! i = Some val' →
     is_raise (to_database col' val') = false) →
  ∃ ctx',
    Token.update_context self ctx = (Raise e, ctx') ∧
    (∀ (i : nat) col' val', (i < j)%nat →
       columns !! i = Some col' → payload !! i = Some val' →
       ∃ out, to_database col' val' = Ok out ∧
              ctx' !! str_int (c + Z.of_nat i) = Some out) ∧
    (∀ k, k ∉ Spec.keys c (Z.of_nat j) → ctx' !! k = ctx !! k).
Proof.
  intros Hi Hcols Hc Hcol Hval He Hbefore.
  rewrite token_update_context_unfold, Hcols, Hi, Hc.
  destruct (loop_fails (zip columns payload) j col val e 0 c ctx)
    as (ctx' & Hrun & Hget & Hframe).
  - apply lookup_zip_with_Some. by exists col, val.
  - exact He.
  - intros i col' val' Hlt Hlook.
    apply lookup_zip_with_Some in Hlook as (? & ? & [= <- <-] & ? & ?).
    by apply (Hbefore i).
  - exists ctx'. split; [exact Hrun|]. split.
    + intros i col' val' Hlt Hc' Hv'.
      apply (Hget i col' val' Hlt). apply lookup_zip_with_Some.
      by exists col', val'.
    + intros k Hk. apply Hframe. intros i Hi' ->. apply Hk.
      apply keys_spec. exists i. split; [lia|done].
Qed.

Lemma token_partial_binding_example :
  let failing := new_Column (fun _ => Raise (ValidationError "bad value")) in
  let self :=
    Token.set_context_id
      (Token.set_columns (Token.__init__ [PyInt 1; PyInt 2])
                         [plain_column; failing]) 0 in
  ∃ ctx',
    Token.update_context self ∅ = (Raise (ValidationError "bad value"), ctx') ∧
    (∀ (i : nat) col' val', (i < 1)%nat →
       [plain_column; failing] !! i = Some col' →
       [PyInt 1; PyInt 2] !! i = Some val' →
       ∃ out, to_database col' val' = Ok out ∧
              ctx' !! str_int (0 + Z.of_nat i) = Some out) ∧
    (∀ k, k ∉ Spec.keys 0 (Z.of_nat 1) → ctx' !! k = (∅ : context) !! k).
Proof.
  apply (token_partial_binding
           (Token.set_context_id
              (Token.set_columns
                 (Token.__init__ [PyInt 1; PyInt 2])
                 [plain_column;
                  new_Column (fun _ => Raise (ValidationError "bad value"))]) 0)
           [PyInt 1; PyInt 2]
           [plain_column;
            new_Column (fun _ => Raise (ValidationError "bad value"))]
           0 ∅ 1%nat
           (new_Column (fun _ => Raise (ValidationError "bad value")))
           (PyInt 2) (ValidationError "bad value")).
  - reflexivity.
  - reflexivity.
  - reflexivity.
  - reflexivity.
  - reflexivity.
  - reflexivity.
  - intros i col' val' Hlt Hcol _.
    destruct i as [|i]; [|lia]. injection Hcol as <-. reflexivity.
Defined.

(** ** Binding and the incoming context *)

Lemma loop_cons (col : Column) (val : pyval) (pairs : list (Column * pyval))
    (s : Z) (cid : option Z) (ctx : context) :
  for_ (enumerate_from s ((col, val) :: pairs)) (bind_pair cid) ctx =
    match to_database col val with
    | Raise e => (Raise e, ctx)
    | Ok v =>
        match cid with
        | None => (Raise TypeError, ctx)
        | Some c =>
            for_ (enumerate_from (s + 1) pairs) (bind_pair cid)
                 (<[str_int (c + s) := v]> ctx)
        end
    end.
Proof.
  rewrite enumerate_from_cons. simpl.
  unfold bind at 1. unfold bind_pair at 1. unfold bind, lift, setitem.
  destruct (to_database col val) as [v|e]; [|reflexivity].
  destruct cid as [c|]; reflexivity.
Qed.

Lemma loop_merge (pairs : list (Column * pyval)) (s : Z) (cid : option Z)
    (ctx0 ctx : context) :
  for_ (enumerate_from s pairs) (bind_pair cid) (ctx0 ∪ ctx) =
    ((for_ (enumerate_from s pairs) (bind_pair cid) ctx0).1,
     (for_ (enumerate_from s pairs) (bind_pair cid) ctx0).2 ∪ ctx).
Proof.
  revert s ctx0. induction pairs as [|[col val] pairs IH]; intros s ctx0.
  - reflexivity.
  - rewrite !loop_cons.
    destruct (to_database col val) as [v|e]; [|reflexivity].
    destruct cid as [c|]; [|reflexivity].
    rewrite insert_union_l. apply IH.
Qed.

(** The context after a call is the one before it with the written entries
    laid over it. *)
Lemma update_context_overlay (b : bindable) (ctx : context) :
  update_context b ctx =
    ((update_context b ∅).1, (update_context b ∅).2 ∪ ctx).
Proof.
  assert (Htime : ∀ self : QueryValue.t,
            MinTimeUUID.update_context self ctx =
              ((MinTimeUUID.update_context self ∅).1,
               (MinTimeUUID.update_context self ∅).2 ∪ ctx)).
  { intros self.
    destruct (QueryValue.value self) as [| | | | | | | |v|] eqn:Hv;
      try (unfold MinTimeUUID.update_context; rewrite Hv; simpl;
           by rewrite (left_id_L ∅ (∪))).
    rewrite !(time_bound_update_context self v _ Hv).
    destruct (Spec.scale_then_truncate v) as [ms|e]; simpl.
    - by rewrite <- insert_union_l, (left_id_L ∅ (∪)).
    - by rewrite (left_id_L ∅ (∪)). }
  destruct b as [self|self|self|self].
  - unfold update_context, QueryValue.update_context, setitem. simpl.
    by rewrite <- insert_union_l, (left_id_L ∅ (∪)).
  - apply Htime.
  - apply Htime.
  - unfold update_context. rewrite !token_update_context_unfold.
    destruct (Token._columns self) as [columns|]; simpl;
      [|by rewrite (left_id_L ∅ (∪))].
    destruct (iter (Token.value self)) as [values|e]; simpl;
      [|by rewrite (left_id_L ∅ (∪))].
    rewrite <- loop_merge. by rewrite (left_id_L ∅ (∪)).
Qed.

(** [update_context] does not read the context: its outcome is the same on
    every context, and the context it leaves is the one it was given with
    the written entries laid over it. *)
Theorem update_context_merges (b : bindable) (ctx : context) :
  update_context b ctx =
    ((update_context b ∅).1, (update_context b ∅).2 ∪ ctx).
Proof. apply update_context_overlay. Qed.

(** Binding the same value twice is binding it once. *)
Theorem update_context_idempotent (b : bindable) (ctx : context) :
  update_context b (update_context b ctx).2 = update_context b ctx.
Proof.
  rewrite (update_context_overlay b ctx). simpl.
  rewrite (update_context_overlay b (_ ∪ ctx)).
  by rewrite (assoc_L (∪)), (idemp_L (∪)).
Qed.

(** The keys [update_context] writes are those of the value's range. *)
Lemma written_keys (b : bindable) (c n : Z) (k : string) :
  context_id b = Some c →
  get_context_size b = Ok n →
  k ∉ Spec.keys c n →
  (update_context b ∅).2 !! k = None.
Proof.
  intros Hc Hn Hk.
  assert (Hone : n = 1 → k ≠ str_int c).
  { intros -> ->. apply Hk, keys_spec. exists 0.
    split; [lia|]. f_equal. lia. }
  assert (Htime : ∀ self : QueryValue.t,
            QueryValue.context_id self = Some c → n = 1 →
            (MinTimeUUID.update_context self ∅).2 !! k = None).
  { intros self Hcs Hn1.
    destruct (QueryValue.value self) as [| | | | | | | |v|] eqn:Hv;
      try (unfold MinTimeUUID.update_context; by rewrite Hv).
    rewrite (time_bound_update_context self v ∅ Hv), Hcs.
    destruct (Spec.scale_then_truncate v) as [ms|e]; [|done].
    simpl. rewrite lookup_insert_ne; [done|]. intros Heq.
    by apply (Hone Hn1). }
  destruct b as [self|self|self|self]; simpl in Hc, Hn.
  - injection Hn as <-.
    unfold update_context, QueryValue.update_context, setitem. rewrite Hc.
    simpl. rewrite lookup_insert_ne; [done|]. intros Heq. by apply Hone.
  - injection Hn as <-. by apply Htime.
  - injection Hn as <-. by apply Htime.
  - unfold update_context. rewrite token_update_context_unfold.
    destruct (Token._columns self) as [columns|]; [|done].
    apply iter_len in Hn as (items & Hi & ->). rewrite Hi, Hc.
    rewrite loop_frame; [done|].
    intros c' j [= <-] Hj ->. apply Hk, keys_spec. exists j.
    rewrite length_zip_with in Hj. split; [lia|done].
Qed.

(** Two values whose ranges of context ids do not meet, each of which
    binds without raising, can be bound in either order: the outcome and
    the context are the same. *)
Theorem update_context_commutes (b1 b2 : bindable) (c1 n1 c2 n2 : Z)
    (ctx : context) :
  context_id b1 = Some c1 → get_context_size b1 = Ok n1 →
  context_id b2 = Some c2 → get_context_size b2 = Ok n2 →
  c1 + n1 ≤ c2 ∨ c2 + n2 ≤ c1 →
  (update_context b1 ∅).1 = Ok tt →
  (update_context b2 ∅).1 = Ok tt →
  (_ <- update_context b1 ;; update_context b2) ctx =
  (_ <- update_context b2 ;; update_context b1) ctx.
Proof.
  intros Hc1 Hn1 Hc2 Hn2 Hdisj Hok1 Hok2. unfold bind.
  rewrite (update_context_overlay b1 ctx), (update_context_overlay b2 ctx).
  rewrite Hok1, Hok2.
  rewrite (update_context_overlay b2 (_ ∪ ctx)),
    (update_context_overlay b1 (_ ∪ ctx)).
  rewrite Hok1, Hok2. f_equal.
  rewrite !(assoc_L (∪)). f_equal. apply map_union_comm.
  apply map_disjoint_alt. intros k.
  destruct (decide (k ∈ Spec.keys c1 n1)) as [Hin1|Hout1];
    [|right; by apply (written_keys b1 c1 n1)].
  left. apply (written_keys b2 c2 n2); [done|done|].
  intros Hin2.
  apply keys_spec in Hin1 as (i & Hi & ->).
  apply keys_spec in Hin2 as (j & Hj & Heq).
  apply str_int_inj in Heq. lia.
Qed.

Lemma update_context_commutes_example :
  let b1 := AQueryValue (QueryValue.new (PyInt 5) (Some 0)) in
  let b2 :=
    AToken (Token.set_context_id
              (Token.set_columns (Token.__init__ [PyInt 7; PyStr "us-east"])
                                 [plain_column; plain_column]) 1) in
  (_ <- update_context b1 ;; update_context b2) ∅ =
  (_ <- update_context b2 ;; update_context b1) ∅.
Proof.
  apply (update_context_commutes
           (AQueryValue (QueryValue.new (PyInt 5) (Some 0)))
           (AToken (Token.set_context_id
                      (Token.set_columns
                         (Token.__init__ [PyInt 7; PyStr "us-east"])
                         [plain_column; plain_column]) 1))
           0 1 1 2 ∅).
  - reflexivity.
  - reflexivity.
  - reflexivity.
  - reflexivity.
  - left. lia.
  - reflexivity.
  - reflexivity.
Defined.

(** ** Placeholders *)

Lemma append_char_inj (s1 s2 : string) (c : ascii) :
  s1 +:+ String c "" = s2 +:+ String c "" → s1 = s2.
Proof.
  revert s2. induction s1 as [|a s1 IH]; intros [|b s2] H.
  - reflexivity.
  - change (String c "" = String b (s2 +:+ String c "")) in H.
    injection H as _ H. by destruct s2.
  - change (String a (s1 +:+ String c "") = String c "") in H.
    injection H as _ H. by destruct s1.
  - change (String a (s1 +:+ String c "") = String b (s2 +:+ String c "")) in H.
    injection H as -> H. f_equal. by apply IH.
Qed.

(** Distinct context ids give distinct placeholders, for the base class
    and for the two time-range bounds: the text tells the keys apart. *)
Theorem placeholders_distinct (self : QueryValue.t) (c1 c2 : Z) :
  c1 ≠ c2 →
  QueryValue.__unicode__ QueryValue.format_string
    (QueryValue.set_context_id self c1) ≠
  QueryValue.__unicode__ QueryValue.format_string
    (QueryValue.set_context_id self c2) ∧
  MinTimeUUID.__unicode__ (QueryValue.set_context_id self c1) ≠
  MinTimeUUID.__unicode__ (QueryValue.set_context_id self c2) ∧
  MaxTimeUUID.__unicode__ (QueryValue.set_context_id self c1) ≠
  MaxTimeUUID.__unicode__ (QueryValue.set_context_id self c2).
Proof.
  intros Hne.
  unfold MinTimeUUID.__unicode__, MaxTimeUUID.__unicode__,
    QueryValue.__unicode__.
  cbn [QueryValue.context_id QueryValue.set_context_id str].
  rewrite !format_min, !format_max.
  unfold QueryValue.format_string. rewrite !format_placeholder.
  repeat split; intros H; apply Hne, str_int_inj.
  - by injection H.
  - apply (append_char_inj _ _ ")"). by apply (inj (String.append _)) in H.
  - apply (append_char_inj _ _ ")"). by apply (inj (String.append _)) in H.
Qed.

Lemma placeholders_distinct_example :
  let self := QueryValue.__init__ (PyInt 5) in
  QueryValue.__unicode__ QueryValue.format_string
    (QueryValue.set_context_id self 1) ≠
  QueryValue.__unicode__ QueryValue.format_string
    (QueryValue.set_context_id self 2) ∧
  MinTimeUUID.__unicode__ (QueryValue.set_context_id self 1) ≠
  MinTimeUUID.__unicode__ (QueryValue.set_context_id self 2) ∧
  MaxTimeUUID.__unicode__ (QueryValue.set_context_id self 1) ≠
  MaxTimeUUID.__unicode__ (QueryValue.set_context_id self 2).
Proof.
  apply (placeholders_distinct (QueryValue.__init__ (PyInt 5)) 1 2). lia.
Defined.

(** ** Time zones that do not answer *)

(** A timestamp whose [tzinfo] returns [None] from [utcoffset] for the
    epoch: [update_context] raises [AttributeError] (from
    [None.total_seconds()]) and the context stays as it was. *)
Theorem time_bound_without_offset (self : QueryValue.t) (v : datetime)
    (tz : tzinfo) (ctx : context) :
  QueryValue.value self = PyDatetime v →
  dt_tzinfo v = Some tz →
  utcoffset tz (new_wallclock 1970 1 1 0 0 0 0) = None →
  MinTimeUUID.update_context self ctx = (Raise AttributeError, ctx) ∧
  MaxTimeUUID.update_context self ctx = (Raise AttributeError, ctx).
Proof.
  intros Hv Htz Hnone.
  assert (H : MinTimeUUID.update_context self ctx = (Raise AttributeError, ctx)).
  { apply (time_bound_raises self v _ ctx Hv).
    unfold Spec.scale_then_truncate, Spec.offset_seconds.
    by rewrite Htz, Hnone. }
  split; exact H.
Qed.

Lemma time_bound_without_offset_example :
  let tz := new_tzinfo (fun _ => None) in
  let self := QueryValue.new (PyDatetime (aware 2013 5 1 12 0 0 0 tz)) (Some 0) in
  MinTimeUUID.update_context self ∅ = (Raise AttributeError, ∅) ∧
  MaxTimeUUID.update_context self ∅ = (Raise AttributeError, ∅).
Proof.
  apply (time_bound_without_offset
           (QueryValue.new
              (PyDatetime (aware 2013 5 1 12 0 0 0 (new_tzinfo (fun _ => None))))
              (Some 0))
           (aware 2013 5 1 12 0 0 0 (new_tzinfo (fun _ => None)))
           (new_tzinfo (fun _ => None)) ∅).
  - reflexivity.
  - reflexivity.
  - reflexivity.
Defined.

(** ** Floats: integers below [2^53] *)

Module FloatExact.
Import SpecFloat FloatOps FloatFacts.

Lemma Zdigits2_mul_pow2 (n k : Z) :
  0 < n → 0 ≤ k → Zdigits2 (n * 2 ^ k) = Zdigits2 n + k.
Proof.
  intros Hn Hk. pose proof (Z.pow_pos_nonneg 2 k ltac:(lia) Hk).
  rewrite !Zdigits2_log2 by nia. rewrite Z.log2_mul_pow2; lia.
Qed.

Lemma shr_1_double (t : Z) :
  0 ≤ t →
  shr_1 (Build_shr_record (2 * t) false false) = Build_shr_record t false false.
Proof. destruct t; try lia; reflexivity. Qed.

(** Shifting out zeros loses nothing. *)
Lemma shr_exact (p : positive) (t : Z) :
  0 ≤ t →
  iter_pos shr_1 p (Build_shr_record (t * 2 ^ Zpos p) false false) =
  Build_shr_record t false false.
Proof.
  rewrite iter_pos_iter. revert t.
  induction p as [|p IH] using Pos.peano_ind; intros t Ht.
  - simpl Pos.iter. change (2 ^ 1) with 2. rewrite Z.mul_comm.
    by apply shr_1_double.
  - rewrite Pos.iter_succ_r.
    replace (t * 2 ^ Zpos (Pos.succ p)) with (2 * (t * 2 ^ Zpos p))
      by (rewrite Pos2Z.inj_succ, Z.pow_succ_r; lia).
    pose proof (Z.pow_pos_nonneg 2 (Zpos p) ltac:(lia) ltac:(lia)).
    rewrite shr_1_double by nia. by apply IH.
Qed.

Lemma fexp_normal (d : Z) : -1021 ≤ d → fexp prec emax d = d - 53.
Proof.
  pose proof (eq_refl : prec = 53). pose proof (eq_refl : emax = 1024).
  unfold fexp, SpecFloat.emin. lia.
Qed.

(** Rounding a mantissa whose digits beyond the precision are zeros. *)
Lemma round_aux_exact (s : bool) (t n e : Z) :
  0 < t → 0 ≤ n → Zdigits2 t = 53 → -1000 ≤ e + n ≤ 900 → -1000 ≤ e →
  binary_round_aux prec emax s (t * 2 ^ n) e loc_Exact =
  S754_finite s (Z.to_pos t) (e + n).
Proof.
  intros Ht Hn Hd He He'.
  pose proof (eq_refl : prec = 53) as Hprec.
  pose proof (eq_refl : emax = 1024) as Hemax.
  assert (Hshift : fexp prec emax (Zdigits2 (t * 2 ^ n) + e) - e = n).
  { rewrite Zdigits2_mul_pow2 by lia. rewrite fexp_normal by lia. lia. }
  assert (H1 : shr_fexp prec emax (t * 2 ^ n) e loc_Exact =
               (Build_shr_record t false false, e + n)).
  { unfold shr_fexp. rewrite Hshift. unfold shr. simpl shr_record_of_loc.
    destruct n as [|p|p]; try lia.
    - by rewrite Z.mul_1_r, Z.add_0_r.
    - by rewrite shr_exact by lia. }
  assert (H2 : shr_fexp prec emax t (e + n) loc_Exact =
               (Build_shr_record t false false, e + n)).
  { unfold shr_fexp. rewrite fexp_normal by lia.
    replace (Zdigits2 t + (e + n) - 53 - (e + n)) with 0 by lia. reflexivity. }
  unfold binary_round_aux. rewrite H1. simpl loc_of_shr_record.
  simpl round_nearest_even. simpl shr_m at 1. rewrite H2. simpl shr_m.
  destruct t as [|q|q]; try lia.
  assert (Hle : (e + n <=? emax - prec) = true) by (apply Z.leb_le; lia).
  by rewrite Hle.
Qed.

Lemma canonical_digits (n : Z) :
  0 < n < 2 ^ 53 →
  1 ≤ Zdigits2 n ≤ 53 ∧
  0 < n * 2 ^ (53 - Zdigits2 n) ∧
  Zdigits2 (n * 2 ^ (53 - Zdigits2 n)) = 53.
Proof.
  intros [Hn Hlt].
  pose proof (Zdigits2_pos n Hn). pose proof (Zdigits2_lt_pow2 n 53 Hn Hlt).
  pose proof (Z.pow_pos_nonneg 2 (53 - Zdigits2 n) ltac:(lia) ltac:(lia)).
  split; [lia|]. split; [nia|].
  rewrite Zdigits2_mul_pow2 by lia. lia.
Qed.

Lemma canonical_valid (s : bool) (n : Z) :
  0 < n < 2 ^ 53 → valid_binary prec emax (canonical s n) = true.
Proof.
  intros Hn. destruct (canonical_digits n Hn) as (Hd & Hpos & Hd53).
  pose proof (eq_refl : prec = 53) as Hprec.
  pose proof (eq_refl : emax = 1024) as Hemax.
  unfold canonical, valid_binary, bounded, canonical_mantissa.
  apply andb_true_iff. split; [apply Z.eqb_eq|apply Z.leb_le; lia].
  change (Zpos (digits2_pos (Z.to_pos (n * 2 ^ (53 - Zdigits2 n)))))
    with (Zdigits2 (Zpos (Z.to_pos (n * 2 ^ (53 - Zdigits2 n))))).
  rewrite Z2Pos.id by done. rewrite Hd53. rewrite fexp_normal by lia. lia.
Qed.

Lemma shl_align_ge (m : positive) (e e' : Z) :
  e ≤ e' → shl_align m e e' = (m, e).
Proof. intros H. unfold shl_align. destruct (e' - e) eqn:Hd; try lia; done. Qed.

(** Rounding an integer below [2^53], however it is scaled. *)
Lemma binary_round_exact (s : bool) (p : positive) (e n : Z) :
  0 < n < 2 ^ 53 → -900 ≤ e ≤ 0 → Zpos p = n * 2 ^ (- e) →
  binary_round prec emax s p e = canonical s n.
Proof.
  intros Hn He Hp. destruct (canonical_digits n Hn) as (Hd & Hpos & Hd53).
  pose proof (eq_refl : prec = 53) as Hprec.
  pose proof (eq_refl : emax = 1024) as Hemax.
  assert (Hdp : Zdigits2 (Zpos p) = Zdigits2 n - e)
    by (rewrite Hp, Zdigits2_mul_pow2; lia).
  unfold binary_round.
  change (Zpos (digits2_pos p)) with (Zdigits2 (Zpos p)).
  rewrite Hdp. replace (Zdigits2 n - e + e) with (Zdigits2 n) by lia.
  rewrite fexp_normal by lia.
  set (t := n * 2 ^ (53 - Zdigits2 n)) in *.
  assert (Hval : ∃ mz ez, shl_align p e (Zdigits2 n - 53) = (mz, ez) ∧
                   Zpos mz = t * 2 ^ (Zdigits2 n - 53 - ez) ∧
                   0 ≤ Zdigits2 n - 53 - ez ∧ -900 ≤ ez).
  { destruct (Z.le_gt_cases (Zdigits2 n - 53) e) as [Hc|Hc].
    - pose proof (shl_align_spec p e (Zdigits2 n - 53)) as Hal.
      destruct (shl_align p e (Zdigits2 n - 53)) as [mz ez].
      destruct Hal as (_ & _ & Hez & Hmz). specialize (Hez Hc). subst ez.
      exists mz, (Zdigits2 n - 53). split; [done|].
      rewrite Z.sub_diag, Z.mul_1_r. split; [|lia].
      rewrite Hmz, Hp. unfold t. rewrite <- Z.mul_assoc.
      rewrite <- Z.pow_add_r by lia. f_equal. f_equal. lia.
    - exists p, e. split; [apply shl_align_ge; lia|]. split; [|lia].
      rewrite Hp. unfold t. rewrite <- Z.mul_assoc.
      rewrite <- Z.pow_add_r by lia. f_equal. f_equal. lia. }
  destruct Hval as (mz & ez & -> & Hval & Hn1 & Hez).
  rewrite Hval. rewrite round_aux_exact; try lia.
  unfold canonical. fold t. f_equal. lia.
Qed.

(** ** The operations on integers below [2^53] *)

Lemma of_int_represents (n : Z) :
  Z.abs n < 2 ^ 53 → represents (Prim2SF (PyFloat.of_int n)) n.
Proof.
  intros Hn. unfold PyFloat.of_int.
  destruct n as [|p|p]; simpl binary_normalize.
  - exists false. reflexivity.
  - rewrite (binary_round_exact false p 0 (Zpos p)) by (simpl; lia).
    rewrite FloatAxioms.Prim2SF_SF2Prim; [done|apply canonical_valid; lia].
  - rewrite (binary_round_exact true p 0 (Zpos p)) by (simpl; lia).
    rewrite FloatAxioms.Prim2SF_SF2Prim; [done|apply canonical_valid; lia].
Qed.

Lemma represents_canonical (s : bool) (n : Z) :
  0 < n → represents (canonical s n) (cond_Zopp s n).
Proof. destruct n as [|p|p]; try lia. intros _. by destruct s. Qed.

Lemma represents_nonzero (x : spec_float) (n : Z) :
  n ≠ 0 → represents x n → x = canonical (n <? 0) (Z.abs n).
Proof. destruct n as [|p|p]; [done| |]; intros _ H; exact H. Qed.

Lemma canonical_parts (s : bool) (n : Z) :
  0 < n < 2 ^ 53 →
  ∃ m e, canonical s n = S754_finite s m e ∧
         e = Zdigits2 n - 53 ∧ -52 ≤ e ≤ 0 ∧ Zpos m = n * 2 ^ (- e) ∧
         Zdigits2 (Zpos m) = 53.
Proof.
  intros Hn. destruct (canonical_digits n Hn) as (Hd & Hpos & Hd53).
  eexists _, _. split; [reflexivity|]. split; [reflexivity|]. split; [lia|].
  rewrite Z2Pos.id by done.
  replace (- (Zdigits2 n - 53)) with (53 - Zdigits2 n) by lia. by split.
Qed.

Lemma new_location_exact (nb : Z) : new_location nb 0 = loc_Exact.
Proof. unfold new_location. by destruct (Z.even nb). Qed.

(** A product divided by its factor. *)
Lemma SFdiv_exact (s : bool) (p mb : positive) :
  Zpos p < 2 ^ 53 →
  SFdiv prec emax (S754_finite s (p * mb) 0) (S754_finite false mb 0) =
  canonical s (Zpos p).
Proof.
  intros Hp.
  destruct (canonical_digits (Zpos p) ltac:(lia)) as (Hd & Hpos & Hd53).
  pose proof (eq_refl : prec = 53) as Hprec.
  pose proof (eq_refl : emax = 1024) as Hemax.
  unfold SFdiv, SFdiv_core_binary.
  set (d1 := Zdigits2 (Zpos (p * mb))). set (d2 := Zdigits2 (Zpos mb)).
  assert (Hd1 : d2 ≤ d1 ≤ Zdigits2 (Zpos p) + d2).
  { split.
    - apply Zdigits2_le. rewrite Pos2Z.inj_mul. nia.
    - apply Zdigits2_mul. }
  rewrite !Z.add_0_r, Z.sub_0_r. rewrite fexp_normal by lia.
  replace (Z.min (d1 - d2 - 53) 0) with (d1 - d2 - 53) by lia.
  set (e := d1 - d2 - 53). set (sh := 0 - e).
  assert (Hsh0 : 0 ≤ sh) by (unfold sh, e; lia).
  assert (Hm' : match sh with Zpos _ => Z.shiftl (Zpos (p * mb)) sh
                | Z0 => Zpos (p * mb) | Zneg _ => 0 end =
                Zpos p * 2 ^ sh * Zpos mb).
  { transitivity (Z.shiftl (Zpos (p * mb)) sh).
    - destruct sh; try lia; reflexivity.
    - rewrite Z.shiftl_mul_pow2, Pos2Z.inj_mul by done. lia. }
  rewrite Hm'.
  assert (Hdiv : Z.div_eucl (Zpos p * 2 ^ sh * Zpos mb) (Zpos mb) =
                 (Zpos p * 2 ^ sh, 0)).
  { pose proof (Z.div_mul (Zpos p * 2 ^ sh) (Zpos mb) ltac:(lia)) as Hq.
    pose proof (Z.mod_mul (Zpos p * 2 ^ sh) (Zpos mb) ltac:(lia)) as Hr.
    unfold Z.div in Hq. unfold Z.modulo in Hr.
    destruct (Z.div_eucl _ _) as [q r]. simpl in Hq, Hr. by subst. }
  rewrite Hdiv, new_location_exact, xorb_false_r.
  set (t := Zpos p * 2 ^ (53 - Zdigits2 (Zpos p))) in *.
  replace (Zpos p * 2 ^ sh) with (t * 2 ^ (Zdigits2 (Zpos p) - 53 - e)).
  - rewrite round_aux_exact; try (unfold e; lia).
    unfold canonical. fold t. f_equal. lia.
  - unfold t. rewrite <- Z.mul_assoc, <- Z.pow_add_r by (unfold e; lia).
    f_equal. f_equal. unfold sh, e. lia.
Qed.

Lemma true_divide_exact (n b : Z) :
  0 < b → Z.abs n < 2 ^ 53 →
  represents (Prim2SF (PyFloat.true_divide (n * b) b)) n.
Proof.
  intros Hb Hn. unfold PyFloat.true_divide.
  destruct b as [|mb|mb]; try lia.
  destruct n as [|p|p]; simpl Z.mul; simpl PyFloat.exact.
  - exists false. reflexivity.
  - rewrite SFdiv_exact by lia.
    rewrite FloatAxioms.Prim2SF_SF2Prim; [done|apply canonical_valid; lia].
  - rewrite SFdiv_exact by lia.
    rewrite FloatAxioms.Prim2SF_SF2Prim; [done|apply canonical_valid; lia].
Qed.

Lemma binary_normalize_exact (c e n : Z) :
  Z.abs n < 2 ^ 53 → -900 ≤ e ≤ 0 → c = n * 2 ^ (- e) →
  represents (binary_normalize prec emax c e false) n.
Proof.
  intros Hn He Hc.
  pose proof (Z.pow_pos_nonneg 2 (- e) ltac:(lia) ltac:(lia)).
  destruct c as [|p|p]; simpl binary_normalize.
  - assert (n = 0) by nia. subst n. by exists false.
  - assert (0 < n) by nia.
    rewrite (binary_round_exact false p e n) by lia.
    destruct n; try lia. reflexivity.
  - assert (n < 0) by nia.
    rewrite (binary_round_exact true p e (- n)) by lia.
    destruct n; try lia. reflexivity.
Qed.

Lemma SFsub_exact (x y : spec_float) (a b : Z) :
  represents x a → represents y b →
  Z.abs a < 2 ^ 53 → Z.abs b < 2 ^ 53 → Z.abs (a - b) < 2 ^ 53 →
  represents (SFsub prec emax x y) (a - b).
Proof.
  intros Hx Hy Ha Hb Hab.
  destruct (Z.eq_dec b 0) as [->|Hb0].
  - destruct Hy as [sy ->]. rewrite Z.sub_0_r.
    destruct (Z.eq_dec a 0) as [->|Ha0].
    + destruct Hx as [sx ->]. simpl. destruct sx, sy; by eexists.
    + pose proof (represents_nonzero x a Ha0 Hx) as Hxc.
      destruct (canonical_parts (a <? 0) (Z.abs a) ltac:(lia))
        as (mx & ex & Hcx & _).
      rewrite Hxc, Hcx. simpl. by rewrite <- Hcx, <- Hxc.
  - pose proof (represents_nonzero y b Hb0 Hy) as Hyc.
    destruct (canonical_parts (b <? 0) (Z.abs b) ltac:(lia))
      as (my & ey & Hcy & Hey & Heyr & Hmy & _).
    destruct (Z.eq_dec a 0) as [->|Ha0].
    + destruct Hx as [sx ->]. rewrite Hyc, Hcy. simpl SFsub.
      replace (S754_finite (negb (b <? 0)) my ey)
        with (canonical (negb (b <? 0)) (Z.abs b))
        by (unfold canonical in *; congruence).
      replace (0 - b) with (cond_Zopp (negb (b <? 0)) (Z.abs b))
        by (destruct (Z.ltb_spec b 0); simpl; lia).
      apply represents_canonical. lia.
    + pose proof (represents_nonzero x a Ha0 Hx) as Hxc.
      destruct (canonical_parts (a <? 0) (Z.abs a) ltac:(lia))
        as (mx & ex & Hcx & Hex & Hexr & Hmx & _).
      rewrite Hxc, Hcx, Hyc, Hcy. simpl SFsub.
      pose proof (shl_align_spec mx ex (Z.min ex ey)) as Hax.
      pose proof (shl_align_spec my ey (Z.min ex ey)) as Hay.
      destruct (shl_align mx ex (Z.min ex ey)) as [mx' ex'].
      destruct (shl_align my ey (Z.min ex ey)) as [my' ey'].
      destruct Hax as (_ & _ & Hex' & Hmx').
      destruct Hay as (_ & _ & Hey' & Hmy').
      specialize (Hex' ltac:(lia)). specialize (Hey' ltac:(lia)).
      subst ex' ey'. simpl fst.
      apply binary_normalize_exact; [done|lia|].
      rewrite Hmx', Hmy', Hmx, Hmy.
      rewrite <- !Z.mul_assoc, <- !Z.pow_add_r by lia.
      replace (- ex + (ex - Z.min ex ey)) with (- Z.min ex ey) by lia.
      replace (- ey + (ey - Z.min ex ey)) with (- Z.min ex ey) by lia.
      destruct (Z.ltb_spec a 0), (Z.ltb_spec b 0); simpl cond_Zopp; lia.
Qed.

Lemma SFmul_exact (x y : spec_float) (a b : Z) :
  represents x a → represents y b →
  Z.abs a < 2 ^ 53 → Z.abs b < 2 ^ 53 → Z.abs (a * b) < 2 ^ 53 →
  represents (SFmul prec emax x y) (a * b).
Proof.
  intros Hx Hy Ha Hb Hab.
  destruct (Z.eq_dec a 0) as [->|Ha0].
  - destruct Hx as [sx ->]. simpl Z.mul.
    destruct (Z.eq_dec b 0) as [->|Hb0].
    + destruct Hy as [sy ->]. by eexists.
    + rewrite (represents_nonzero y b Hb0 Hy). by eexists.
  - pose proof (represents_nonzero x a Ha0 Hx) as Hxc.
    destruct (canonical_parts (a <? 0) (Z.abs a) ltac:(lia))
      as (mx & ex & Hcx & Hex & Hexr & Hmx & Hdx).
    destruct (Z.eq_dec b 0) as [->|Hb0].
    + destruct Hy as [sy ->]. rewrite Z.mul_0_r, Hxc, Hcx. by eexists.
    + pose proof (represents_nonzero y b Hb0 Hy) as Hyc.
      destruct (canonical_parts (b <? 0) (Z.abs b) ltac:(lia))
        as (my & ey & Hcy & Hey & Heyr & Hmy & Hdy).
      rewrite Hxc, Hcx, Hyc, Hcy. simpl SFmul.
      set (n := Z.abs a * Z.abs b).
      assert (Hn : 0 < n < 2 ^ 53) by (unfold n; rewrite <- Z.abs_mul; nia).
      destruct (canonical_digits n Hn) as (Hd & Hpos & Hd53).
      assert (Hdn : Zdigits2 (Z.abs a) + Zdigits2 (Z.abs b) - 1 ≤ Zdigits2 n).
      { unfold n. rewrite !Zdigits2_log2 by nia.
        pose proof (Z.log2_mul_below (Z.abs a) (Z.abs b) ltac:(lia) ltac:(lia)).
        lia. }
      set (t := n * 2 ^ (53 - Zdigits2 n)) in *.
      replace (Zpos (mx * my))
        with (t * 2 ^ (Zdigits2 n - 53 - (ex + ey))).
      * rewrite round_aux_exact; try lia.
        replace (ex + ey + (Zdigits2 n - 53 - (ex + ey)))
          with (Zdigits2 n - 53) by lia.
        replace (a * b) with (cond_Zopp (xorb (a <? 0) (b <? 0)) n).
        -- apply (represents_canonical _ n). lia.
        -- unfold n. destruct (Z.ltb_spec a 0), (Z.ltb_spec b 0);
             simpl cond_Zopp; lia.
      * rewrite Pos2Z.inj_mul, Hmx, Hmy. unfold t, n.
        assert (Hpow : 2 ^ (53 - Zdigits2 n) *
                       2 ^ (Zdigits2 n - 53 - (ex + ey)) =
                       2 ^ (- ex) * 2 ^ (- ey))
          by (rewrite <- !Z.pow_add_r by lia; f_equal; lia).
        fold n. rewrite <- Z.mul_assoc, Hpow. unfold n. ring.
Qed.

Lemma long_exact (x : PyFloat.float) (n : Z) :
  Z.abs n < 2 ^ 53 → represents (Prim2SF x) n → PyFloat.long x = Ok n.
Proof.
  intros Hn Hx. unfold PyFloat.long.
  destruct (Z.eq_dec n 0) as [->|Hn0].
  - destruct Hx as [s ->]. reflexivity.
  - rewrite (represents_nonzero _ n Hn0 Hx).
    destruct (canonical_parts (n <? 0) (Z.abs n) ltac:(lia))
      as (m & e & Hc & He & Her & Hm & _).
    rewrite Hc. f_equal.
    assert (Hsh : Z.shiftl (Zpos m) e = Z.abs n).
    { rewrite Z.shiftl_div_pow2 by lia. rewrite Hm.
      apply Z.div_mul. pose proof (Z.pow_pos_nonneg 2 (- e)). lia. }
    rewrite Hsh. destruct (Z.ltb_spec n 0); lia.
Qed.

End FloatExact.

(** ** Floats: digits of a quotient *)

Module FloatBound.
Import SpecFloat FloatOps FloatFacts.

(** The quotient has about as many digits as the dividend has more than
    the divisor. *)
Lemma div_core_digits (mx my : positive) :
  let '(q, e, _) := SFdiv_core_binary prec emax (Zpos mx) 0 (Zpos my) 0 in
  Zdigits2 q + e ≤ Z.max (Zdigits2 (Zpos mx) - Zdigits2 (Zpos my) + 1) 0.
Proof.
  unfold SFdiv_core_binary.
  pose proof (eq_refl : prec = 53) as Hprec.
  pose proof (eq_refl : emax = 1024) as Hemax.
  set (d1 := Zdigits2 (Zpos mx)). set (d2 := Zdigits2 (Zpos my)).
  rewrite !Z.add_0_r, Z.sub_0_r.
  set (e := Z.min (fexp prec emax (d1 - d2)) 0).
  set (s := 0 - e).
  assert (Hs : 0 ≤ s) by (unfold s, e; lia).
  assert (Hm' : match s with Zpos _ => Z.shiftl (Zpos mx) s | Z0 => Zpos mx
                | Zneg _ => 0 end = Z.shiftl (Zpos mx) s).
  { destruct s; try lia; reflexivity. }
  rewrite Hm'. clear Hm'.
  set (m' := Z.shiftl (Zpos mx) s).
  pose proof (Z.div_eucl_eq m' (Zpos my) ltac:(lia)) as Hdiv.
  pose proof (Z.mod_pos_bound m' (Zpos my) ltac:(lia)) as Hmod.
  unfold Z.modulo in Hmod.
  destruct (Z.div_eucl m' (Zpos my)) as [q r]. simpl in Hmod.
  assert (Hm'pos : 0 < m').
  { unfold m'. rewrite Z.shiftl_mul_pow2 by done.
    pose proof (Z.pow_pos_nonneg 2 s). lia. }
  assert (Hd1 : Zdigits2 m' = d1 + s).
  { unfold m'. rewrite Zdigits2_log2 by done.
    rewrite Z.log2_shiftl by lia. unfold d1. rewrite Zdigits2_log2; lia. }
  assert (Hq : 0 ≤ q) by nia.
  destruct (Z.eq_dec q 0) as [->|Hq0]; [simpl; unfold e; lia|].
  assert (Hhi : m' < 2 ^ (d1 + s)).
  { pose proof (Z.log2_spec m' Hm'pos) as [_ Hhi].
    rewrite Zdigits2_log2 in Hd1 by done.
    by replace (Z.succ (Z.log2 m')) with (d1 + s) in Hhi by lia. }
  assert (Hlo : 2 ^ (d2 - 1) ≤ Zpos my).
  { pose proof (Z.log2_spec (Zpos my) ltac:(lia)) as [Hlo _].
    unfold d2. rewrite Zdigits2_log2 by lia.
    by replace (Z.log2 (Zpos my) + 1 - 1) with (Z.log2 (Zpos my)) by lia. }
  assert (Hd2 : 1 ≤ d2) by (pose proof (Zdigits2_pos (Zpos my)); unfold d2; lia).
  assert (Hpow : 0 < 2 ^ (d2 - 1)) by (apply Z.pow_pos_nonneg; lia).
  assert (Hexp : d2 - 1 < d1 + s).
  { destruct (Z.le_gt_cases (d1 + s) (d2 - 1)) as [Hle|]; [|done].
    pose proof (Z.pow_le_mono_r 2 (d1 + s) (d2 - 1) ltac:(lia) Hle). nia. }
  assert (Hqlt : q < 2 ^ (d1 + s - d2 + 1)).
  { assert (Hsplit : 2 ^ (d1 + s) = 2 ^ (d1 + s - d2 + 1) * 2 ^ (d2 - 1))
      by (rewrite <- Z.pow_add_r by lia; f_equal; lia).
    pose proof (Z.pow_pos_nonneg 2 (d1 + s - d2 + 1) ltac:(lia) ltac:(lia)).
    nia. }
  pose proof (Zdigits2_lt_pow2 q _ ltac:(lia) Hqlt). unfold s in *. lia.
Qed.

Lemma true_divide_digits (a b ka kb : Z) :
  Z.abs a < 2 ^ ka → 2 ^ kb ≤ b → 0 ≤ kb ≤ ka → ka - kb < 1000 →
  small (ka - kb + 1) (Prim2SF (PyFloat.true_divide a b)).
Proof.
  intros Ha Hb Hk Hk'. unfold PyFloat.true_divide.
  pose proof (eq_refl : prec = 53) as Hprec.
  pose proof (eq_refl : emax = 1024) as Hemax.
  pose proof (Z.pow_pos_nonneg 2 kb ltac:(lia) ltac:(lia)) as Hpos.
  destruct b as [|mb|mb]; try lia.
  assert (Hdb : kb + 1 ≤ Zdigits2 (Zpos mb)).
  { rewrite Zdigits2_log2 by lia.
    pose proof (Z.log2_le_mono _ _ Hb) as Hl.
    rewrite Z.log2_pow2 in Hl by lia. lia. }
  assert (Hgen : ∀ (s : bool) (ma : positive), Z.pos ma < 2 ^ ka →
            small (ka - kb + 1)
              (Prim2SF (SF2Prim (SFdiv prec emax (S754_finite s ma 0)
                                       (S754_finite false mb 0))))).
  { intros s ma Hma. unfold SFdiv.
    pose proof (div_core ma mb) as Hcore.
    pose proof (div_core_digits ma mb) as Hdig.
    destruct (SFdiv_core_binary prec emax (Z.pos ma) 0 (Z.pos mb) 0)
      as [[q e] l].
    destruct Hcore as (Hq & He & Hfexp & _).
    rewrite FloatAxioms.Prim2SF_SF2Prim by (by apply binary_round_aux_valid).
    pose proof (Zdigits2_lt_pow2 (Z.pos ma) ka ltac:(lia) Hma).
    apply binary_round_aux_small; try lia.
    unfold SpecFloat.emin. lia. }
  destruct a as [|ma|ma]; simpl PyFloat.exact.
  - vm_compute. exact I.
  - apply Hgen. lia.
  - apply Hgen. lia.
Qed.

(** The integer of a float of magnitude below [2^k] is below [2^k]. *)
Lemma long_bound (x : PyFloat.float) (k n : Z) :
  small k (Prim2SF x) → 0 ≤ k → PyFloat.long x = Ok n → Z.abs n < 2 ^ k.
Proof.
  unfold PyFloat.long. intros Hx Hk Hn.
  pose proof (Z.pow_pos_nonneg 2 k ltac:(lia) Hk) as Hpk.
  destruct (Prim2SF x) as [s|s| |s m e]; try done.
  - injection Hn as <-. simpl. lia.
  - cbn [small] in Hx. injection Hn as <-.
    assert (Hv : 0 ≤ Z.shiftl (Zpos m) e < 2 ^ k).
    { pose proof (Z.log2_spec (Zpos m) ltac:(lia)) as [_ Hhi].
      rewrite Zdigits2_log2 in Hx by lia.
      destruct (Z.le_gt_cases 0 e) as [He|He].
      - rewrite Z.shiftl_mul_pow2 by done.
        pose proof (Z.pow_pos_nonneg 2 e ltac:(lia) He).
        split; [nia|].
        pose proof (Z.pow_le_mono_r 2 (Z.succ (Z.log2 (Zpos m)) + e) k
                      ltac:(lia) ltac:(lia)) as Hle.
        rewrite Z.pow_add_r in Hle by (pose proof (Z.log2_nonneg (Zpos m)); lia).
        nia.
      - rewrite Z.shiftl_div_pow2 by lia.
        pose proof (Z.pow_pos_nonneg 2 (- e) ltac:(lia) ltac:(lia)).
        split; [apply Z.div_pos; lia|].
        apply Z.div_lt_upper_bound; [lia|].
        destruct (Z.le_gt_cases (Z.succ (Z.log2 (Zpos m))) (- e + k)) as [Hc|Hc].
        + pose proof (Z.pow_le_mono_r 2 _ _ ltac:(lia) Hc) as Hle.
          rewrite Z.pow_add_r in Hle by lia. lia.
        + lia. }
    destruct s; lia.
Qed.

End FloatBound.

(** ** Timestamps on whole seconds *)

Lemma wall_seconds_bound (w : wallclock) :
  Datetime.valid w = true → Z.abs (Spec.wall_seconds w) < 2 ^ 38.
Proof.
  unfold Datetime.valid. rewrite !andb_true_iff.
  rewrite !Z.leb_le, !Z.ltb_lt.
  intros [[[[[[[[[[[[[? ?] ?] ?] ?] ?] ?] ?] ?] ?] ?] ?] ?] ?].
  pose proof (days_before_month_bounds (year w) (month w)).
  pose proof (days_in_month_bounds (year w) (month w)).
  unfold Spec.wall_seconds, Datetime.ymd_to_ord, Datetime.days_before_year.
  change (2 ^ 38) with 274877906944.
  set (dbm := Datetime.days_before_month (year w) (month w)) in *.
  set (dim := Datetime.days_in_month (year w) (month w)) in *.
  clearbody dbm dim.
  pose proof (Z.div_pos (year w - 1) 4 ltac:(lia) ltac:(lia)).
  pose proof (Z.div_lt_upper_bound (year w - 1) 4 2500 ltac:(lia) ltac:(lia)).
  pose proof (Z.div_pos (year w - 1) 100 ltac:(lia) ltac:(lia)).
  pose proof (Z.div_lt_upper_bound (year w - 1) 100 100 ltac:(lia) ltac:(lia)).
  pose proof (Z.div_pos (year w - 1) 400 ltac:(lia) ltac:(lia)).
  pose proof (Z.div_lt_upper_bound (year w - 1) 400 25 ltac:(lia) ltac:(lia)).
  set (q4 := (year w - 1) `div` 4) in *.
  set (q100 := (year w - 1) `div` 100) in *.
  set (q400 := (year w - 1) `div` 400) in *.
  clearbody q4 q100 q400. lia.
Qed.

(** A timestamp on a whole second, with an offset in whole seconds: no
    rounding takes place. *)
Lemma whole_seconds_exact (t : datetime) (o : Z) :
  Datetime.valid (wall t) = true →
  microsecond (wall t) = 0 →
  Spec.whole_offset t = Some o →
  Spec.scale_then_truncate t = Ok ((Spec.wall_seconds (wall t) - o) * 1000).
Proof.
  intros Hvalid Hus Hoff.
  pose proof (wall_seconds_bound (wall t) Hvalid) as HW.
  set (W := Spec.wall_seconds (wall t)) in *.
  change (2 ^ 38) with 274877906944 in HW.
  assert (H53 : 2 ^ 53 = 9007199254740992) by reflexivity.
  assert (Hel : represents (FloatOps.Prim2SF (Spec.elapsed_seconds t)) W).
  { unfold Spec.elapsed_seconds.
    replace (Spec.wall_microseconds (wall t)) with (W * 1000000)
      by (unfold Spec.wall_microseconds, W, Spec.wall_seconds; rewrite Hus; lia).
    apply FloatExact.true_divide_exact; lia. }
  assert (Hof : ∃ off, Spec.offset_seconds t = Ok off ∧
                       represents (FloatOps.Prim2SF off) o ∧ Z.abs o < 86400).
  { unfold Spec.whole_offset in Hoff. unfold Spec.offset_seconds.
    destruct (dt_tzinfo t) as [tz|].
    - destruct (utcoffset tz _) as [td|]; [|discriminate].
      destruct (_ && _) eqn:Hc; [|discriminate]. injection Hoff as <-.
      apply andb_true_iff in Hc as [Hc1 Hc2].
      apply Z.eqb_eq in Hc1. apply Z.ltb_lt in Hc2.
      eexists. split; [reflexivity|]. split; [|done].
      unfold Datetime.total_seconds, Datetime.delta_to_microseconds.
      rewrite Hc1, Z.add_0_r. apply FloatExact.true_divide_exact; lia.
    - injection Hoff as <-. eexists. split; [reflexivity|]. split; [|lia].
      apply FloatExact.of_int_represents. lia. }
  destruct Hof as (off & Hoff' & Hrep & Ho).
  unfold Spec.scale_then_truncate. rewrite Hoff'. simpl.
  apply FloatExact.long_exact; [lia|].
  unfold PyFloat.mul, PyFloat.sub.
  rewrite FloatAxioms.mul_spec, FloatAxioms.sub_spec.
  apply FloatExact.SFmul_exact; try lia.
  - apply FloatExact.SFsub_exact; try done; lia.
  - apply FloatExact.of_int_represents. lia.
Qed.

(** The integer a valid timestamp yields fits 64 bits, sign included. *)
Lemma scale_then_truncate_bound (t : datetime) (ms : Z) :
  Datetime.valid (wall t) = true → Spec.offset_defined t = true →
  Spec.scale_then_truncate t = Ok ms → - 2 ^ 63 ≤ ms < 2 ^ 63.
Proof.
  intros Hvalid Hoff Hms.
  assert (Hel : small 49 (FloatOps.Prim2SF (Spec.elapsed_seconds t))).
  { apply (FloatFacts.small_mono 41); [lia|]. unfold Spec.elapsed_seconds.
    apply (FloatBound.true_divide_digits _ _ 59 19); [|simpl; lia|lia|lia].
    by apply wall_microseconds_bound. }
  assert (Hof : ∃ off, Spec.offset_seconds t = Ok off ∧ small 49 (FloatOps.Prim2SF off)).
  { unfold Spec.offset_defined in Hoff. unfold Spec.offset_seconds.
    destruct (dt_tzinfo t) as [tz|].
    - destruct (utcoffset tz _) as [td|]; [|discriminate].
      eexists. split; [reflexivity|]. unfold Datetime.total_seconds.
      apply (FloatBound.true_divide_digits _ _ 67 19); [|simpl; lia|lia|lia].
      by apply delta_microseconds_bound.
    - eexists. split; [reflexivity|]. vm_compute. exact I. }
  destruct Hof as (off & Hoff' & Hsmall).
  unfold Spec.scale_then_truncate in Hms. rewrite Hoff' in Hms. simpl in Hms.
  assert (Hb : Z.abs ms < 2 ^ 62).
  { apply (FloatBound.long_bound _ 62 ms) in Hms; [done| |lia].
    unfold PyFloat.mul, PyFloat.sub.
    rewrite FloatAxioms.mul_spec, FloatAxioms.sub_spec.
    apply (FloatFacts.SFmul_small _ _ 51 10); [|vm_compute; discriminate|lia].
    apply (FloatFacts.SFsub_small _ _ 49); [done|done|lia]. }
  change (2 ^ 62) with 4611686018427387904 in Hb.
  change (2 ^ 63) with 9223372036854775808. lia.
Qed.

(** A time-range bound over a valid timestamp on a whole second, naive or
    with an offset in whole seconds, binds the exact number of
    milliseconds: 1000 times the seconds on its clock since the epoch less
    the offset. In that case the doubles lose nothing. *)
Theorem whole_seconds_bind_exactly (self : QueryValue.t) (v : datetime)
    (c o : Z) (ctx : context) :
  QueryValue.value self = PyDatetime v →
  QueryValue.context_id self = Some c →
  Datetime.valid (wall v) = true →
  microsecond (wall v) = 0 →
  Spec.whole_offset v = Some o →
  let ms := (Spec.wall_seconds (wall v) - o) * 1000 in
  MinTimeUUID.update_context self ctx = (Ok tt, <[str_int c := PyLong ms]> ctx) ∧
  MaxTimeUUID.update_context self ctx = (Ok tt, <[str_int c := PyLong ms]> ctx).
Proof.
  intros Hv Hc Hvalid Hus Hoff ms.
  assert (H : MinTimeUUID.update_context self ctx =
              (Ok tt, <[str_int c := PyLong ms]> ctx)).
  { rewrite (time_bound_update_context self v ctx Hv).
    rewrite (whole_seconds_exact v o Hvalid Hus Hoff), Hc. reflexivity. }
  split; exact H.
Qed.

Lemma whole_seconds_bind_exactly_example :
  let v := aware 2013 5 1 14 0 0 0 (fixed_offset 120) in
  let self := QueryValue.new (PyDatetime v) (Some 3) in
  let ms := (Spec.wall_seconds (wall v) - 7200) * 1000 in
  MinTimeUUID.update_context self ∅ = (Ok tt, <[str_int 3 := PyLong ms]> ∅) ∧
  MaxTimeUUID.update_context self ∅ = (Ok tt, <[str_int 3 := PyLong ms]> ∅).
Proof.
  apply (whole_seconds_bind_exactly
           (QueryValue.new
              (PyDatetime (aware 2013 5 1 14 0 0 0 (fixed_offset 120))) (Some 3))
           (aware 2013 5 1 14 0 0 0 (fixed_offset 120)) 3 7200 ∅).
  - reflexivity.
  - reflexivity.
  - reflexivity.
  - reflexivity.
  - reflexivity.
Defined.

(** The instant of a timestamp on a whole second whose time zone keeps its
    offset. *)
Lemma utc_microseconds_whole (t : datetime) (o : Z) :
  microsecond (wall t) = 0 →
  Spec.whole_offset t = Some o →
  Spec.offset_constant t →
  Spec.utc_microseconds t = Some ((Spec.wall_seconds (wall t) - o) * 1000000).
Proof.
  intros Hus Hoff Hconst.
  assert (HW : Spec.wall_microseconds (wall t) =
               Spec.wall_seconds (wall t) * 1000000)
    by (unfold Spec.wall_microseconds, Spec.wall_seconds; rewrite Hus; lia).
  unfold Spec.utc_microseconds, Spec.whole_offset in *.
  destruct (dt_tzinfo t) as [tz|] eqn:Htz.
  - rewrite (Hconst tz Htz).
    destruct (utcoffset tz _) as [td|]; [|discriminate].
    destruct (_ && _) eqn:Hc; [|discriminate]. injection Hoff as <-.
    apply andb_true_iff in Hc as [Hc1 _]. apply Z.eqb_eq in Hc1.
    simpl. f_equal. unfold Datetime.delta_to_microseconds.
    rewrite HW, Hc1. lia.
  - injection Hoff as <-. f_equal. rewrite HW. lia.
Qed.

(** Two valid timestamps on whole seconds that denote the same instant,
    each naive or in a time zone with a constant offset in whole seconds,
    bind the same value, whichever of the two classes binds them. *)
Theorem same_instant_whole_seconds (t1 t2 : datetime) (o1 o2 c : Z)
    (ctx : context) :
  Datetime.valid (wall t1) = true → Datetime.valid (wall t2) = true →
  microsecond (wall t1) = 0 → microsecond (wall t2) = 0 →
  Spec.whole_offset t1 = Some o1 → Spec.whole_offset t2 = Some o2 →
  Spec.offset_constant t1 → Spec.offset_constant t2 →
  Spec.same_instant t1 t2 →
  Spec.scale_then_truncate t1 = Spec.scale_then_truncate t2 ∧
  MinTimeUUID.update_context (QueryValue.new (PyDatetime t1) (Some c)) ctx =
  MinTimeUUID.update_context (QueryValue.new (PyDatetime t2) (Some c)) ctx ∧
  MaxTimeUUID.update_context (QueryValue.new (PyDatetime t1) (Some c)) ctx =
  MaxTimeUUID.update_context (QueryValue.new (PyDatetime t2) (Some c)) ctx.
Proof.
  intros Hv1 Hv2 Hus1 Hus2 Ho1 Ho2 Hc1 Hc2 [_ Hsame].
  rewrite (utc_microseconds_whole t1 o1 Hus1 Ho1 Hc1) in Hsame.
  rewrite (utc_microseconds_whole t2 o2 Hus2 Ho2 Hc2) in Hsame.
  injection Hsame as Hsame.
  assert (Heq : Spec.scale_then_truncate t1 = Spec.scale_then_truncate t2).
  { rewrite (whole_seconds_exact t1 o1 Hv1 Hus1 Ho1).
    rewrite (whole_seconds_exact t2 o2 Hv2 Hus2 Ho2).
    f_equal. lia. }
  assert (H : MinTimeUUID.update_context
                (QueryValue.new (PyDatetime t1) (Some c)) ctx =
              MinTimeUUID.update_context
                (QueryValue.new (PyDatetime t2) (Some c)) ctx).
  { rewrite (time_bound_update_context
               (QueryValue.new (PyDatetime t1) (Some c)) t1 ctx eq_refl).
    rewrite (time_bound_update_context
               (QueryValue.new (PyDatetime t2) (Some c)) t2 ctx eq_refl).
    by rewrite Heq. }
  split; [exact Heq|]. split; exact H.
Qed.

Lemma same_instant_whole_seconds_example :
  let t1 := aware 2013 5 1 14 0 0 0 (fixed_offset 120) in
  let t2 := naive 2013 5 1 12 0 0 0 in
  Spec.scale_then_truncate t1 = Spec.scale_then_truncate t2 ∧
  MinTimeUUID.update_context (QueryValue.new (PyDatetime t1) (Some 0)) ∅ =
  MinTimeUUID.update_context (QueryValue.new (PyDatetime t2) (Some 0)) ∅ ∧
  MaxTimeUUID.update_context (QueryValue.new (PyDatetime t1) (Some 0)) ∅ =
  MaxTimeUUID.update_context (QueryValue.new (PyDatetime t2) (Some 0)) ∅.
Proof.
  apply (same_instant_whole_seconds
           (aware 2013 5 1 14 0 0 0 (fixed_offset 120))
           (naive 2013 5 1 12 0 0 0) 7200 0 0 ∅).
  - reflexivity.
  - reflexivity.
  - reflexivity.
  - reflexivity.
  - reflexivity.
  - reflexivity.
  - intros tz [= <-]. reflexivity.
  - intros tz H. discriminate H.
  - split; [by eexists|]. vm_compute. reflexivity.
Defined.

(** The value a time-range bound binds for a valid timestamp fits a signed
    integer of 64 bits. *)
Theorem time_bound_fits_64_bits (self : QueryValue.t) (v : datetime)
    (c : Z) (ctx : context) :
  QueryValue.value self = PyDatetime v →
  QueryValue.context_id self = Some c →
  Datetime.valid (wall v) = true →
  Spec.offset_defined v = true →
  ∃ ms,
    (MinTimeUUID.update_context self ctx).2 !! str_int c = Some (PyLong ms) ∧
    (MaxTimeUUID.update_context self ctx).2 !! str_int c = Some (PyLong ms) ∧
    - 2 ^ 63 ≤ ms < 2 ^ 63.
Proof.
  intros Hv Hc Hvalid Hoff.
  destruct (scale_then_truncate_returns v Hvalid Hoff) as [ms Hms].
  exists ms.
  assert (H : (MinTimeUUID.update_context self ctx).2 !! str_int c =
              Some (PyLong ms)).
  { rewrite (time_bound_update_context self v ctx Hv), Hms, Hc. simpl.
    apply lookup_insert_eq. }
  split; [exact H|]. split; [exact H|].
  by apply (scale_then_truncate_bound v ms).
Qed.

Lemma time_bound_fits_64_bits_example :
  let v := naive 9999 12 31 23 59 59 999999 in
  let self := QueryValue.new (PyDatetime v) (Some 0) in
  ∃ ms,
    (MinTimeUUID.update_context self ∅).2 !! str_int 0 = Some (PyLong ms) ∧
    (MaxTimeUUID.update_context self ∅).2 !! str_int 0 = Some (PyLong ms) ∧
    - 2 ^ 63 ≤ ms < 2 ^ 63.
Proof.
  apply (time_bound_fits_64_bits
           (QueryValue.new (PyDatetime (naive 9999 12 31 23 59 59 999999))
                           (Some 0))
           (naive 9999 12 31 23 59 59 999999) 0 ∅).
  - reflexivity.
  - reflexivity.
  - reflexivity.
  - reflexivity.
Defined.

(** ** The context id assigned last *)

Lemma get_context_size_set_context_id (b : bindable) (c : Z) :
  get_context_size (set_context_id b c) = get_context_size b.
Proof. destruct b; reflexivity. Qed.

(** The text of a token with context id [c]: the markers from [c] on, as
    many as [len] counts, or the exception of [len]. *)
Lemma token_unicode_size (self : Token.t) (c : Z) :
  Token.context_id self = Some c →
  Token.__unicode__ self =
    (n <-- Token.get_context_size self ;;
     Ok ("token(" +:+ join ", " (Spec.markers c n) +:+ ")")).
Proof.
  intros Hc. destruct (Token.get_context_size self) as [n|e] eqn:Hn.
  - apply iter_len in Hn as (items & Hi & ->).
    by rewrite (token_unicode self items c Hi Hc).
  - unfold Token.__unicode__. by rewrite Hn.
Qed.

(** C9. Assigning a context id to a value that already has one overwrites
    it: [set_context_id] raises nothing and checks nothing, and the value is
    the one a single assignment of the last id gives. The text and the
    binding use the id assigned last: the placeholders are those of [c2],
    the entries are written under the keys of [c2], and no other key is
    touched, that of [c1] included when it is not one of them. *)
Theorem set_context_id_overwrites (b : bindable) (c1 c2 : Z) :
  let b' := set_context_id (set_context_id b c1) c2 in
  b' = set_context_id b c2 ∧
  context_id b' = Some c2 ∧
  unicode b' = unicode (set_context_id b c2) ∧
  update_context b' = update_context (set_context_id b c2) ∧
  unicode b' =
    match b with
    | AQueryValue _ => Ok (":" +:+ str_int c2)
    | AMinTimeUUID _ => Ok ("MinTimeUUID(:" +:+ str_int c2 +:+ ")")
    | AMaxTimeUUID _ => Ok ("MaxTimeUUID(:" +:+ str_int c2 +:+ ")")
    | AToken self =>
        n <-- Token.get_context_size self ;;
        Ok ("token(" +:+ join ", " (Spec.markers c2 n) +:+ ")")
    end ∧
  (∀ ctx,
     match b with
     | AQueryValue self =>
         update_context b' ctx =
           (Ok tt, <[str_int c2 := QueryValue.value self]> ctx)
     | AMinTimeUUID self | AMaxTimeUUID self =>
         ∀ v, QueryValue.value self = PyDatetime v →
           update_context b' ctx =
             match Spec.scale_then_truncate v with
             | Ok ms => (Ok tt, <[str_int c2 := PyLong ms]> ctx)
             | Raise e => (Raise e, ctx)
             end
     | AToken self =>
         ∀ columns payload,
           Token._columns self = Some columns →
           iter (Token.value self) = Ok payload →
           (∀ (i : nat) col val,
              columns !! i = Some col → payload !! i = Some val →
              is_raise (to_database col val) = false) →
           ∃ ctx',
             update_context b' ctx = (Ok tt, ctx') ∧
             (∀ (i : nat) col val,
                columns !! i = Some col → payload !! i = Some val →
                ∃ out, to_database col val = Ok out ∧
                       ctx' !! str_int (c2 + Z.of_nat i) = Some out)
     end) ∧
  (∀ ctx n k,
     get_context_size b = Ok n →
     k ∉ Spec.keys c2 n →
     (update_context b' ctx).2 !! k = ctx !! k).
Proof.
  intros b'.
  assert (H : b' = set_context_id b c2) by (destruct b; reflexivity).
  split; [exact H|]. split; [by destruct b|].
  split; [by rewrite H|]. split; [by rewrite H|]. split; [|split].
  - destruct b as [self|self|self|self].
    + change (Ok (format ":{}" (str_int c2)) = Ok (":" +:+ str_int c2)).
      by rewrite format_placeholder.
    + change (Ok (format MinTimeUUID.format_string (str_int c2)) =
              Ok ("MinTimeUUID(:" +:+ str_int c2 +:+ ")")).
      by rewrite format_min.
    + change (Ok (format MaxTimeUUID.format_string (str_int c2)) =
              Ok ("MaxTimeUUID(:" +:+ str_int c2 +:+ ")")).
      by rewrite format_max.
    + exact (token_unicode_size
               (Token.set_context_id (Token.set_context_id self c1) c2) c2
               eq_refl).
  - intros ctx. destruct b as [self|self|self|self].
    + reflexivity.
    + intros v Hv.
      exact (time_bound_update_context
               (QueryValue.set_context_id (QueryValue.set_context_id self c1) c2)
               v ctx Hv).
    + intros v Hv.
      exact (time_bound_update_context
               (QueryValue.set_context_id (QueryValue.set_context_id self c1) c2)
               v ctx Hv).
    + intros columns payload Hcols Hi Hok.
      destruct (token_update_context_zip
                  (Token.set_context_id (Token.set_context_id self c1) c2)
                  payload columns c2 ctx Hi Hcols eq_refl Hok)
        as (ctx' & Hrun & Hbound & _).
      exists ctx'. by split.
  - intros ctx n k Hn Hk. rewrite (update_context_overlay b' ctx). simpl.
    rewrite lookup_union_r; [done|].
    apply (written_keys b' c2 n); [by destruct b| |done].
    unfold b'. by rewrite !get_context_size_set_context_id.
Qed.

Lemma set_context_id_overwrites_example :
  let columns := [plain_column; plain_column] in
  let payload := [PyInt 7; PyStr "us-east"] in
  let b := AToken (Token.set_columns (Token.__init__ payload) columns) in
  let b' := set_context_id (set_context_id b 0) 5 in
  unicode b' = Ok "token(:5, :6)" ∧
  (∃ ctx',
     update_context b' ∅ = (Ok tt, ctx') ∧
     (∀ (i : nat) col val,
        columns !! i = Some col → payload !! i = Some val →
        ∃ out, to_database col val = Ok out ∧
               ctx' !! str_int (5 + Z.of_nat i) = Some out)) ∧
  (update_context b' {["0" := PyInt 1]}).2 !! "0" = Some (PyInt 1).
Proof.
  intros columns payload b b'.
  destruct (set_context_id_overwrites b 0 5) as (_ & _ & _ & _ & H5 & H6 & H7).
  split; [etransitivity; [exact H5|vm_compute; reflexivity]|]. split.
  - apply (H6 ∅ columns payload).
    + reflexivity.
    + reflexivity.
    + intros i col val Hcol _.
      destruct i as [|[|i]]; simpl in Hcol; try discriminate;
        injection Hcol as <-; reflexivity.
  - etransitivity; [apply (H7 {["0" := PyInt 1]} 2 "0")|].
    + reflexivity.
    + intros Hin. apply keys_spec in Hin as (i & Hi & Heq).
      assert (Hcases : i = 0 ∨ i = 1) by lia.
      destruct Hcases as [-> | ->]; discriminate Heq.
    + apply lookup_singleton_eq.
Defined.
